(** * Filament Tracker: a shallow embedding of [filament_tracker.py]

    The development follows the source file top to bottom: the Python
    built-ins the program relies on ([str] methods, [int], [float], the
    [csv] module), then the CSV helpers, the spool id generator, the
    totals computation of [App.update_totals], the two dialogs'
    validation, and the start-up migration block.

    Modelling conventions.
    - A Python [str] is a [string]; a character of [ascii] stands for the
      code point of the same number, so the text handled here is the text
      over the code points below 256 (ASCII and Latin-1).
    - An exception is the [None] of an [option]: [csv.Error] in the
      reader, [ValueError] in [int], [float] and integer formatting.
    - A Python [int] is an [N] (the program only builds non-negative ones).
    - A Python [float] is a primitive binary64 [float].
    - A row ([dict] from column name to value) is a [gmap string pyval],
      where a value is a [str] or [None].
    - The file system is a finite map from paths to file contents. *)

From Stdlib Require Import ZArith NArith Ascii String List Bool Lia.
From Stdlib Require Import Floats.PrimFloat Floats.SpecFloat Floats.FloatOps.
From stdpp Require Import base option gmap strings list fin_maps.

Import ListNotations.

Local Open Scope N_scope.

(** ** Strings *)
Module Str.

(** [all p s]: every character of [s] satisfies [p]. *)
Fixpoint all (p : ascii -> bool) (s : string) : bool :=
  match s with
  | EmptyString => true
  | String c s' => p c && all p s'
  end.

(** [repeat c n] is Python's [c * n]. *)
Fixpoint repeat (c : ascii) (n : nat) : string :=
  match n with
  | O => EmptyString
  | S n' => String c (repeat c n')
  end.

End Str.

(** *** [str.isspace], [str.strip], [str.lower] *)

(** The characters for which [str.isspace] holds: TAB, LF, VT, FF, CR, the
    four separators FS, GS, RS, US, the space, NEL (133) and the no-break
    space (160). *)
Definition isspace (c : ascii) : bool :=
  let n := N_of_ascii c in
  ((9 <=? n) && (n <=? 13)) || ((28 <=? n) && (n <=? 32))
  || (n =? 133) || (n =? 160).

Fixpoint lstrip (s : string) : string :=
  match s with
  | EmptyString => EmptyString
  | String c s' => if isspace c then lstrip s' else s
  end.

Fixpoint rstrip (s : string) : string :=
  match s with
  | EmptyString => EmptyString
  | String c s' =>
      match rstrip s' with
      | EmptyString => if isspace c then EmptyString else String c EmptyString
      | r => String c r
      end
  end.

Definition strip (s : string) : string := rstrip (lstrip s).

(** The upper-case letters: [A] to [Z] and the accented capitals 192 to
    222 (215, the multiplication sign, is not a letter); each has its
    lower-case form 32 places further. *)
Definition lower_char (c : ascii) : ascii :=
  let n := N_of_ascii c in
  if ((65 <=? n) && (n <=? 90))
     || ((192 <=? n) && (n <=? 222) && negb (n =? 215))
  then ascii_of_N (n + 32) else c.

Fixpoint lower (s : string) : string :=
  match s with
  | EmptyString => EmptyString
  | String c s' => String (lower_char c) (lower s')
  end.

(** *** [str.startswith], [str.split] *)

Definition startswith (s pre : string) : bool := String.prefix pre s.

(** [s.split(sep)] for a one-character separator. *)
Fixpoint split (sep : ascii) (s : string) : list string :=
  match s with
  | EmptyString => [EmptyString]
  | String c s' =>
      if Ascii.eqb c sep then EmptyString :: split sep s'
      else match split sep s' with
           | [] => [String c EmptyString]
           | h :: t => String c h :: t
           end
  end.

(** [sep not in s]. *)
Definition no_sep (sep : ascii) (s : string) : bool :=
  Str.all (fun c => negb (Ascii.eqb c sep)) s.

(** *** [str.isdigit], [int], [str] on integers and the [0Nd] format *)

(** The decimal digits [0] to [9]. *)
Definition is_digit (c : ascii) : bool :=
  let n := N_of_ascii c in (48 <=? n) && (n <=? 57).

(** The characters [str.isdigit] accepts: the decimal digits and the
    superscript digits two, three and one (178, 179 and 185), which are
    digits without being decimal. *)
Definition is_unicode_digit (c : ascii) : bool :=
  let n := N_of_ascii c in
  is_digit c || (n =? 178) || (n =? 179) || (n =? 185).

Definition isdigit (s : string) : bool :=
  match s with
  | EmptyString => false
  | _ => Str.all is_unicode_digit s
  end.

(** [str.isdecimal]: not empty, and decimal digits only. *)
Definition isdecimal (s : string) : bool :=
  match s with
  | EmptyString => false
  | _ => Str.all is_digit s
  end.

Definition digit_val (c : ascii) : N := N_of_ascii c - 48.

Fixpoint int_go (acc : N) (s : string) : N :=
  match s with
  | EmptyString => acc
  | String c s' => int_go (acc * 10 + digit_val c) s'
  end.

(** The number a string of decimal digits writes. *)
Definition decimal_value (s : string) : N := int_go 0 s.

(** [sys.get_int_max_str_digits()], as Python 3.11 sets it: the longest
    digit string [int] reads, and the longest an integer is written
    with. *)
Definition max_str_digits : N := 4300.

(** [int(s)] for a string that passed [str.isdigit], which is how the
    program calls it; [None] is the [ValueError] it raises on a digit that
    is not decimal and on more than [max_str_digits] digits, leading zeros
    included. (A sign, surrounding white space and underscores, which
    [int] also reads, do not pass [str.isdigit].) *)
Definition int (s : string) : option N :=
  if isdecimal s && (N.of_nat (String.length s) <=? max_str_digits)
  then Some (decimal_value s) else None.

Definition digit_char (d : N) : ascii := ascii_of_N (48 + d).

Fixpoint str_go (fuel : nat) (n : N) : string :=
  match fuel with
  | O => EmptyString
  | S f =>
      if n <? 10 then String (digit_char n) EmptyString
      else str_go f (n / 10) +:+ String (digit_char (n mod 10)) EmptyString
  end.

(** The decimal digits of [n], most significant first. *)
Definition str_int (n : N) : string := str_go (S (N.to_nat (N.log2 n))) n.

(** The digits of [n] padded on the left with zeros to width [w]. *)
Definition format_0d (w : nat) (n : N) : string :=
  let s := str_int n in
  Str.repeat "0"%char (w - String.length s) +:+ s.

(** [f"{n:0{w}d}"]; [None] is the [ValueError] raised when [n] has more
    than [max_str_digits] digits. *)
Definition format_int (w : nat) (n : N) : option string :=
  if N.of_nat (String.length (str_int n)) <=? max_str_digits
  then Some (format_0d w n) else None.

(** ** Spool ID generation *)

(** The part of [datetime.now()] that [gen_spool_id] reads. *)
Record datetime := { year : N; month : N; day : N }.

(** A calendar date as [datetime] produces them ([MINYEAR] to [MAXYEAR]). *)
Definition valid_date (d : datetime) : Prop :=
  1 <= year d <= 9999 /\ 1 <= month d <= 12 /\ 1 <= day d <= 31.

(** [d.strftime("%Y%m%d")]. *)
Definition strftime_Ymd (d : datetime) : string :=
  format_0d 4 (year d) +:+ format_0d 2 (month d) +:+ format_0d 2 (day d).

Definition spool_prefix (now : datetime) : string :=
  "SP-" +:+ strftime_Ymd now +:+ "-".

(** [sid.split("-")[-1]]. *)
Definition tail_of (sid : string) : string := List.last (split "-"%char sid) "".

(** One iteration of the [for sid in existing_ids] loop: [nums]
    afterwards, or [None] when [int(tail)] raises. *)
Definition gen_step (pre : string) (nums : list N) (sid : string) : option (list N) :=
  if startswith sid pre then
    let tail := tail_of sid in
    if isdigit tail then
      match int tail with
      | Some n => Some (nums ++ [n])
      | None => None
      end
    else Some nums
  else Some nums.

(** The loop over the ids; an exception ends it. *)
Fixpoint gen_loop (pre : string) (ids : list string) (nums : list N) : option (list N) :=
  match ids with
  | [] => Some nums
  | sid :: rest =>
      match gen_step pre nums sid with
      | Some nums' => gen_loop pre rest nums'
      | None => None
      end
  end.

(** [max(nums)] for a non-empty list. *)
Definition max_list (n : N) (ns : list N) : N := fold_left N.max ns n.

(** [gen_spool_id(existing_ids)] on the day [now]: the id returned, or
    [None] when the call ends in a [ValueError]. *)
Definition gen_spool_id (now : datetime) (existing_ids : list string) : option string :=
  let pre := spool_prefix now in
  match gen_loop pre existing_ids [] with
  | None => None
  | Some nums =>
      let next_num := match nums with
                      | [] => 1
                      | n :: ns => max_list n ns + 1
                      end in
      match format_int 4 next_num with
      | Some s => Some (pre +:+ s)
      | None => None
      end
  end.

(** The generator as the specification words it: the ids carrying today's
    prefix whose last dash-separated part is all digits (the decimal
    digits), the numbers they carry, and the successor of the largest. *)
Definition matching_id (pre : string) (sid : string) : bool :=
  startswith sid pre && isdecimal (tail_of sid).

Definition today_numbers (pre : string) (ids : list string) : list N :=
  map (fun sid => decimal_value (tail_of sid)) (List.filter (matching_id pre) ids).

Definition gen_spool_id_spec (now : datetime) (existing_ids : list string) : string :=
  let pre := spool_prefix now in
  match today_numbers pre existing_ids with
  | [] => pre +:+ "0001"
  | ns => pre +:+ format_0d 4 (fold_right N.max 0 ns + 1)
  end.

(** The day the specification's example is set on. *)
Definition today_2024 : datetime := {| year := 2024; month := 1; day := 1 |}.

(** [sid.split("-")[1]]: the date segment of an id. *)
Definition date_segment (sid : string) : string := nth 1 (split "-"%char sid) "".

(** The sequence number the generator appends: one more than the largest
    of today's numbers, or one when there are none. *)
Definition next_number (pre : string) (ids : list string) : N :=
  match today_numbers pre ids with
  | [] => 1
  | ns => fold_right N.max 0 ns + 1
  end.

(** The ids on which the loop raises: today's prefix, a last part that
    passes [str.isdigit], and [int] refuses it. *)
Definition rejected_id (pre : string) (sid : string) : bool :=
  startswith sid pre && isdigit (tail_of sid)
  && match int (tail_of sid) with Some _ => false | None => true end.

(** Whether the call ends in a [ValueError]: in the loop, or when the
    next number is too long to be written. *)
Definition gen_spool_id_raises (now : datetime) (ids : list string) : bool :=
  let pre := spool_prefix now in
  existsb (rejected_id pre) ids
  || negb (N.of_nat (String.length (str_int (next_number pre ids))) <=? max_str_digits).

(** The superscript two, and an id of the day that ends in it. *)
Definition superscript_two : string := String "178"%char EmptyString.

Definition superscript_id : string := "SP-20240101-" +:+ superscript_two.

(** An id of the day whose last part has one digit more than
    [max_str_digits]. *)
Definition long_id : string :=
  "SP-20240101-" +:+ Str.repeat "9"%char (N.to_nat (max_str_digits + 1)).

(** ** [float(s)] and [safe_float] *)

(** The characters [float] strips from both ends: those C's [Py_ISSPACE]
    accepts (TAB, LF, VT, FF, CR, the space), and the white space above
    ASCII (NEL and the no-break space), which [float] first turns into
    spaces. *)
Definition is_c_space (c : ascii) : bool :=
  let n := N_of_ascii c in
  ((9 <=? n) && (n <=? 13)) || (n =? 32) || (n =? 133) || (n =? 160).

Fixpoint lstrip_c (s : string) : string :=
  match s with
  | EmptyString => EmptyString
  | String c s' => if is_c_space c then lstrip_c s' else s
  end.

Fixpoint rstrip_c (s : string) : string :=
  match s with
  | EmptyString => EmptyString
  | String c s' =>
      match rstrip_c s' with
      | EmptyString => if is_c_space c then EmptyString else String c EmptyString
      | r => String c r
      end
  end.

(** Underscores in numeric literals: allowed only between two digits.
    [prev] is the previous character (NUL at the start). *)
Fixpoint drop_underscores (prev : ascii) (s : string) : option string :=
  match s with
  | EmptyString => if Ascii.eqb prev "_" then None else Some EmptyString
  | String c s' =>
      if Ascii.eqb c "_" then
        if is_digit prev then drop_underscores c s' else None
      else if Ascii.eqb prev "_" && negb (is_digit c) then None
      else option_map (String c) (drop_underscores c s')
  end.

(** The longest prefix of digits and what follows it. *)
Fixpoint span_digits (s : string) : string * string :=
  match s with
  | EmptyString => (EmptyString, EmptyString)
  | String c s' =>
      if is_digit c then let (ds, rest) := span_digits s' in (String c ds, rest)
      else (EmptyString, s)
  end.

(** An optional sign: whether it is a minus, and what follows it. *)
Definition take_sign (s : string) : bool * string :=
  match s with
  | String "-" s' => (true, s')
  | String "+" s' => (false, s')
  | _ => (false, s)
  end.

(** The optional exponent part [e[+-]digits]: its value and what follows;
    without at least one digit nothing is consumed. *)
Definition take_exponent (s : string) : Z * string :=
  match s with
  | String c s' =>
      if Ascii.eqb c "e" || Ascii.eqb c "E" then
        let (neg, s1) := take_sign s' in
        let (ds, rest) := span_digits s1 in
        match ds with
        | EmptyString => (0%Z, s)
        | _ => ((if neg then - Z.of_N (decimal_value ds) else Z.of_N (decimal_value ds))%Z, rest)
        end
      else (0%Z, s)
  | EmptyString => (0%Z, s)
  end.

(** The correctly rounded binary64 value of [m * 10^e10], signed. *)
Definition decimal_to_float (neg : bool) (m : N) (e10 : Z) : float :=
  match m with
  | N0 => if neg then neg_zero else zero
  | Npos p =>
      let sf :=
        if (0 <=? e10)%Z
        then binary_normalize prec emax (Zpos p * 10 ^ e10)%Z 0%Z false
        else SFdiv prec emax (S754_finite false p 0%Z)
                             (S754_finite false (Z.to_pos (10 ^ (- e10))) 0%Z) in
      let f := SF2Prim sf in
      if neg then (- f)%float else f
  end.

(** A decimal literal [[sign] digits [. digits] [exponent]] with at least
    one digit: its value and what follows it. [None] when no literal
    starts here. *)
Definition parse_decimal (s : string) : option (float * string) :=
  let (neg, s1) := take_sign s in
  let (ip, s2) := span_digits s1 in
  let (fp, s3) := match s2 with
                  | String "." s2' => span_digits s2'
                  | _ => (EmptyString, s2)
                  end in
  match ip +:+ fp with
  | EmptyString => None
  | ds =>
      let (e, rest) := take_exponent s3 in
      Some (decimal_to_float neg (decimal_value ds) (e - Z.of_nat (String.length fp)), rest)
  end.

(** [inf], [infinity] and [nan] in any letter case, with an optional
    sign: the value and what follows it. *)
Definition parse_inf_or_nan (s : string) : option (float * string) :=
  let (neg, s1) := take_sign s in
  let low := lower s1 in
  if String.prefix "inf" low then
    let v := if neg then neg_infinity else infinity in
    let after := String.substring 3 (String.length s1 - 3) s1 in
    if String.prefix "inity" (lower after)
    then Some (v, String.substring 5 (String.length after - 5) after)
    else Some (v, after)
  else if String.prefix "nan" low then
    Some (if neg then (- nan)%float else nan,
          String.substring 3 (String.length s1 - 3) s1)
  else None.

(** [float(s)] for a [str]: [None] stands for [ValueError]. *)
Definition float_of_str (s : string) : option float :=
  match drop_underscores "000" s with
  | None => None
  | Some s0 =>
      let s1 := rstrip_c (lstrip_c s0) in
      let parsed := match parse_decimal s1 with
                    | Some r => Some r
                    | None => parse_inf_or_nan s1
                    end in
      match parsed with
      | Some (x, EmptyString) => Some x
      | _ => None
      end
  end.

(** ** Schemas *)

Definition JOB_COLS : list string :=
  ["Date"; "Name of Job"; "Grams Potential"; "Status"; "Lost (g)"; "Spool ID"].

Definition SPOOL_COLS : list string :=
  ["Spool ID"; "Material"; "Other Material"; "Color"; "Other Color";
   "Spool Size (g)"; "Notes"; "Created"].

Definition STATUSES : list string := ["init"; "success"; "failed"; "pending"].

(** ** Rows *)

(** A cell value: a [str], or [None]. *)
Abbreviation pyval := (option string).

(** A row maps column names to values. *)
Abbreviation row := (gmap string pyval).

(** [r.get(k, default)]. *)
Definition dict_get (r : row) (k : string) (default : pyval) : pyval :=
  match r !! k with
  | Some v => v
  | None => default
  end.

(** [v == s] for a value [v] and a [str] [s]. *)
Definition val_eqb (v : pyval) (s : string) : bool :=
  match v with
  | Some t => String.eqb t s
  | None => false
  end.

(** [v or ""]. *)
Definition or_empty (v : pyval) : string :=
  match v with
  | Some s => s
  | None => EmptyString
  end.

(** [safe_float(s)]: [float(s)], or [0.0] when [float] raises (on a string
    that is not a number, and on [None]). *)
Definition safe_float (v : pyval) : float :=
  match v with
  | Some s => match float_of_str s with
              | Some x => x
              | None => 0%float
              end
  | None => 0%float
  end.

(** ** Totals: [App.update_totals] *)

(** The four displayed values, before they are formatted; [spool_remaining]
    is [None] when the display reads [(select a spool)]. *)
Record totals := {
  total_potential : float;
  total_lost : float;
  total_consumed : float;
  spool_remaining : option float
}.

(** The local function [passes]. *)
Definition passes (filter_sid : string) (r : row) : bool :=
  if String.eqb filter_sid "(All)" then true
  else val_eqb (dict_get r "Spool ID" (Some "")) filter_sid.

Definition potential_of (r : row) : float :=
  safe_float (dict_get r "Grams Potential" (Some "")).

Definition status_of (r : row) : string :=
  lower (strip (or_empty (dict_get r "Status" (Some "")))).

Definition lost_of (r : row) : float :=
  safe_float (dict_get r "Lost (g)" (Some "")).

(** One iteration of [for r in rows]; the accumulator holds
    [(total_potential, total_lost, total_consumed)]. *)
Definition totals_step (filter_sid : string)
    (acc : float * float * float) (r : row) : float * float * float :=
  let '(tp, tl, tc) := acc in
  if negb (passes filter_sid r) then acc
  else
    let potential := potential_of r in
    let status := status_of r in
    let lost := lost_of r in
    let tp := (tp + potential)%float in
    if String.eqb status "success" then (tp, tl, (tc + potential)%float)
    else if String.eqb status "failed" then (tp, (tl + lost)%float, (tc + lost)%float)
    else (tp, tl, tc).

(** The loop [for s in spools: if s.get("Spool ID","") == filter_sid:
    size = ...; break] with [size] initially [0.0]. *)
Fixpoint spool_size (filter_sid : string) (spools : list row) : float :=
  match spools with
  | [] => 0%float
  | s :: rest =>
      if val_eqb (dict_get s "Spool ID" (Some "")) filter_sid
      then safe_float (dict_get s "Spool Size (g)" (Some ""))
      else spool_size filter_sid rest
  end.

(** [max(a, b)] on floats: the first argument unless the second is
    greater. *)
Definition py_max (a b : float) : float :=
  if (a <? b)%float then b else a.

Definition update_totals (jobs spools : list row) (filter_sid : string) : totals :=
  let '(tp, tl, tc) :=
    fold_left (totals_step filter_sid) jobs (0%float, 0%float, 0%float) in
  {| total_potential := tp;
     total_lost := tl;
     total_consumed := tc;
     spool_remaining :=
       if negb (String.eqb filter_sid "(All)") then
         let size := spool_size filter_sid spools in
         Some (py_max (size - tc)%float 0%float)
       else None |}.

(** The totals as the specification words them: three sums over the
    included jobs, each job adding what its status says. *)
Definition included (filter_sid : string) (jobs : list row) : list row :=
  List.filter (passes filter_sid) jobs.

(** Sum of a list of floats, added left to right starting from [0.0]. *)
Definition fsum (xs : list float) : float := fold_left PrimFloat.add xs 0%float.

Definition consumed_contribution (r : row) : option float :=
  if String.eqb (status_of r) "success" then Some (potential_of r)
  else if String.eqb (status_of r) "failed" then Some (lost_of r)
  else None.

Definition lost_contribution (r : row) : option float :=
  if String.eqb (status_of r) "failed" then Some (lost_of r) else None.

(** The size of the first spool whose id is the filter, [0.0] if none. *)
Definition first_spool_size (filter_sid : string) (spools : list row) : float :=
  match List.find (fun s => val_eqb (dict_get s "Spool ID" (Some "")) filter_sid) spools with
  | Some s => safe_float (dict_get s "Spool Size (g)" (Some ""))
  | None => 0%float
  end.

(** [{"Grams Potential": p, "Status": st, "Lost (g)": l, "Spool ID": sid}]. *)
Definition job_row (p st l sid : string) : row :=
  <["Grams Potential" := Some p]> (<["Status" := Some st]>
    (<["Lost (g)" := Some l]> (<["Spool ID" := Some sid]> ∅))).

(** [{"Spool ID": sid, "Spool Size (g)": size}]. *)
Definition spool_row (sid size : string) : row :=
  <["Spool ID" := Some sid]> (<["Spool Size (g)" := Some size]> ∅).

(** The two jobs of the specification's example: 100 g succeeded, 50 g
    failed with 10 g lost. *)
Definition example_jobs : list row :=
  [job_row "100" "success" "" "SP-20240101-0001";
   job_row "50" "failed" "10" "SP-20240101-0001"].

Definition example_spools : list row :=
  [spool_row "SP-20240101-0001" "1000"; spool_row "SP-20240101-0002" "750"].

(** ** The dialogs *)

(** A [ttk.Treeview]: its items in display order, each the list of its
    column values. *)
Definition treeview : Type := list (list pyval).

(** [[data.get(c, "") for c in cols]]. *)
Definition values_of (cols : list string) (data : row) : list pyval :=
  map (fun c => dict_get data c (Some "")) cols.


Definition App_edit_job_row (iid : nat) (data : row) (tree : treeview) : treeview :=
  <[iid := values_of JOB_COLS data]> tree.

(** [App._add_spool_row] and [App._edit_spool_row] on the spools tree. *)
Definition App_add_spool_row (data : row) (tree : treeview) : treeview :=
  tree ++ [values_of SPOOL_COLS data].

Definition App_edit_spool_row (iid : nat) (data : row) (tree : treeview) : treeview :=
  <[iid := values_of SPOOL_COLS data]> tree.

(** What pressing OK leads to: an error box (with its title and message)
    and the dialog left open, or the data handed to [on_ok] and the dialog
    destroyed. *)
Inductive dialog_result :=
| Rejected (title message : string)
| Accepted (data : row).

(** The local function [is_float]. *)
Definition is_float (s : string) : bool :=
  match float_of_str s with
  | Some _ => true
  | None => false
  end.

(** [not s] for a [str]. *)
Definition empty (s : string) : bool := String.eqb s "".

(** [s in l] for a list of [str]. *)
Definition str_in (s : string) (l : list string) : bool := existsb (String.eqb s) l.

(** The [StringVar]s of a [JobDialog]. *)
Record JobDialog := {
  date_var : string;
  name_var : string;
  potential_var : string;
  status_var : string;
  lost_var : string;
  spool_var : string
}.

(** The checks of [JobDialog.ok], up to the construction of [data]: the
    error box shown, or the data. *)
Definition JobDialog_validate (dlg : JobDialog) : string * string + row :=
  let date := strip (date_var dlg) in
  let name := strip (name_var dlg) in
  let potential := strip (potential_var dlg) in
  let status := lower (strip (status_var dlg)) in
  let lost := strip (lost_var dlg) in
  let spool_id := strip (spool_var dlg) in
  if empty date || empty name then
    inl ("Missing fields", "Date and Name are required.")
  else if negb (empty potential) && negb (is_float potential) then
    inl ("Invalid number", "Grams Potential must be a number.")
  else if negb (str_in status STATUSES) then
    inl ("Invalid status", "Status must be one of: init, success, failed, pending")
  else
    let lost_error :=
      if String.eqb status "failed" then
        if empty lost || negb (is_float lost)
        then Some ("Missing lost grams", "Please enter Lost (g) for failed prints.")
        else None
      else
        if negb (empty lost) && negb (is_float lost)
        then Some ("Invalid number", "Lost (g) must be a number or blank.")
        else None in
    match lost_error with
    | Some e => inl e
    | None =>
        inr (<["Date" := Some date]> (<["Name of Job" := Some name]>
            (<["Grams Potential" := Some potential]> (<["Status" := Some status]>
            (<["Lost (g)" := Some (if String.eqb status "failed" then lost else "")]>
            (<["Spool ID" := Some spool_id]> ∅))))))
    end.

(** Running a dialog's checks against a tree: on an error nothing is
    called; otherwise [on_ok], if there is one, receives the data. *)
Definition run_ok (checked : string * string + row)
    (on_ok : option (row -> treeview -> treeview)) (tree : treeview)
  : dialog_result * treeview :=
  match checked with
  | inl (title, message) => (Rejected title message, tree)
  | inr data =>
      (Accepted data, match on_ok with
                      | Some f => f data tree
                      | None => tree
                      end)
  end.


(** The [StringVar]s of a [SpoolDialog]. *)
Record SpoolDialog := {
  id_var : string;
  material_var : string;
  other_mat_var : string;
  color_var : string;
  other_color_var : string;
  size_var : string;
  notes_var : string;
  created_var : string
}.

Definition SpoolDialog_validate (dlg : SpoolDialog) : string * string + row :=
  let sid := strip (id_var dlg) in
  let mat := strip (material_var dlg) in
  let other_mat := strip (other_mat_var dlg) in
  let col := strip (color_var dlg) in
  let other := strip (other_color_var dlg) in
  let size := strip (size_var dlg) in
  let notes := strip (notes_var dlg) in
  let created := strip (created_var dlg) in
  if empty sid then
    inl ("Missing Spool ID", "Spool ID is required.")
  else if empty size || negb (is_float size) then
    inl ("Invalid size", "Spool Size (g) must be a number.")
  else if String.eqb mat "Other" && empty other_mat then
    inl ("Missing material", "Please enter Other Material.")
  else if String.eqb col "Other" && empty other then
    inl ("Missing color", "Please enter Other Color.")
  else
    inr (<["Spool ID" := Some sid]> (<["Material" := Some mat]>
        (<["Other Material" := Some (if String.eqb mat "Other" then other_mat else "")]>
        (<["Color" := Some col]>
        (<["Other Color" := Some (if String.eqb col "Other" then other else "")]>
        (<["Spool Size (g)" := Some size]> (<["Notes" := Some notes]>
        (<["Created" := Some created]> ∅)))))))).

(** [SpoolDialog.ok]. *)
Definition SpoolDialog_ok (dlg : SpoolDialog)
    (on_ok : option (row -> treeview -> treeview)) (tree : treeview)
  : dialog_result * treeview :=
  run_ok (SpoolDialog_validate dlg) on_ok tree.

(** The job rules as the specification lists them, each giving the error
    it raises when it fails, on the trimmed fields of the form
    (the status also lower-cased). *)
Record job_fields := {
  f_date : string; f_name : string; f_potential : string;
  f_status : string; f_lost : string; f_spool : string
}.

Definition fields_of (dlg : JobDialog) : job_fields :=
  {| f_date := strip (date_var dlg);
     f_name := strip (name_var dlg);
     f_potential := strip (potential_var dlg);
     f_status := lower (strip (status_var dlg));
     f_lost := strip (lost_var dlg);
     f_spool := strip (spool_var dlg) |}.








Definition failed_job_lost5 : JobDialog :=
  {| date_var := "2024-01-01"; name_var := "bracket"; potential_var := "50";
     status_var := "failed"; lost_var := "5"; spool_var := "SP-20240101-0001" |}.

(** Three spool forms: material [Other] without and with its free text,
    and a listed material with the free text still filled in. *)
Definition spool_other_blank : SpoolDialog :=
  {| id_var := "SP-20240101-0001"; material_var := "Other"; other_mat_var := "";
     color_var := "Black"; other_color_var := ""; size_var := "1000";
     notes_var := ""; created_var := "2024-01-01" |}.

Definition spool_other_named : SpoolDialog :=
  {| id_var := "SP-20240101-0001"; material_var := "Other"; other_mat_var := "PVB";
     color_var := "Black"; other_color_var := ""; size_var := "1000";
     notes_var := ""; created_var := "2024-01-01" |}.

Definition spool_pla_leftover : SpoolDialog :=
  {| id_var := "SP-20240101-0001"; material_var := "PLA"; other_mat_var := "PVB";
     color_var := "Black"; other_color_var := ""; size_var := "1000";
     notes_var := ""; created_var := "2024-01-01" |}.

(** ** The [csv] module, default ([excel]) dialect *)

(** Only the parts the program uses are modelled: delimiter [,], quote
    character (code 34), doubled quotes, minimal quoting, line terminator CR LF,
    no escape character, not strict. The reader's field size limit is not
    modelled. *)

Definition quote_char : ascii := "034".
Definition cr : ascii := "013".
Definition lf : ascii := "010".

Definition is_newline (c : ascii) : bool :=
  Ascii.eqb c "010" || Ascii.eqb c "013".

(** The lines a text file opened with [newline=""] yields: each ends with
    the line ending found in the file (LF, CR or CR LF), except possibly
    the last. *)
Fixpoint readlines (s : string) : list string :=
  match s with
  | EmptyString => []
  | String c s' =>
      if Ascii.eqb c "010" then String c EmptyString :: readlines s'
      else if Ascii.eqb c "013" then
        match s' with
        | String "010" s'' => String c (String "010" EmptyString) :: readlines s''
        | _ => String c EmptyString :: readlines s'
        end
      else
        match readlines s' with
        | [] => [String c EmptyString]
        | l :: ls => String c l :: ls
        end
  end.

Module Reader.

(** The parser states that can be reached without an escape character. *)
Inductive ParserState :=
| START_RECORD
| START_FIELD
| IN_FIELD
| IN_QUOTED_FIELD
| QUOTE_IN_QUOTED_FIELD
| EAT_CRNL.

(** The reader object: parser state, fields of the record so far, and the
    characters of the field being read. *)
Record ReaderObj := {
  state : ParserState;
  fields : list string;
  field : string
}.

(** What the parser is fed: a character of the line, or the end of the
    line. *)
Inductive input :=
| Char (c : ascii)
| EOL.

Definition set_state (st : ParserState) (self : ReaderObj) : ReaderObj :=
  {| state := st; fields := fields self; field := field self |}.

Definition parse_save_field (self : ReaderObj) : ReaderObj :=
  {| state := state self; fields := fields self ++ [field self]; field := EmptyString |}.

Definition parse_add_char (self : ReaderObj) (c : ascii) : ReaderObj :=
  {| state := state self; fields := fields self;
     field := field self +:+ String c EmptyString |}.

Definition parse_reset : ReaderObj :=
  {| state := START_RECORD; fields := []; field := EmptyString |}.

(** The [START_FIELD] case, also reached by falling through from
    [START_RECORD]. *)
Definition start_field (self : ReaderObj) (c : input) : option ReaderObj :=
  match c with
  | EOL => Some (set_state START_RECORD (parse_save_field self))
  | Char ch =>
      if is_newline ch then Some (set_state EAT_CRNL (parse_save_field self))
      else if Ascii.eqb ch "034" then Some (set_state IN_QUOTED_FIELD self)
      else if Ascii.eqb ch "," then Some (parse_save_field self)
      else Some (set_state IN_FIELD (parse_add_char self ch))
  end.

(** [parse_process_char]; [None] stands for [csv.Error]. *)
Definition parse_process_char (self : ReaderObj) (c : input) : option ReaderObj :=
  match state self with
  | START_RECORD =>
      match c with
      | EOL => Some self
      | Char ch =>
          if is_newline ch then Some (set_state EAT_CRNL self)
          else start_field (set_state START_FIELD self) c
      end
  | START_FIELD => start_field self c
  | IN_FIELD =>
      match c with
      | EOL => Some (set_state START_RECORD (parse_save_field self))
      | Char ch =>
          if is_newline ch then Some (set_state EAT_CRNL (parse_save_field self))
          else if Ascii.eqb ch "," then Some (set_state START_FIELD (parse_save_field self))
          else Some (parse_add_char self ch)
      end
  | IN_QUOTED_FIELD =>
      match c with
      | EOL => Some self
      | Char ch =>
          if Ascii.eqb ch "034" then Some (set_state QUOTE_IN_QUOTED_FIELD self)
          else Some (parse_add_char self ch)
      end
  | QUOTE_IN_QUOTED_FIELD =>
      match c with
      | EOL => Some (set_state START_RECORD (parse_save_field self))
      | Char ch =>
          if Ascii.eqb ch "034" then Some (set_state IN_QUOTED_FIELD (parse_add_char self ch))
          else if Ascii.eqb ch "," then Some (set_state START_FIELD (parse_save_field self))
          else if is_newline ch then Some (set_state EAT_CRNL (parse_save_field self))
          else Some (set_state IN_FIELD (parse_add_char self ch))
      end
  | EAT_CRNL =>
      match c with
      | EOL => Some (set_state START_RECORD self)
      | Char ch => if is_newline ch then Some self else None
      end
  end.

(** One line through the parser: its characters, then the end of line. *)
Fixpoint feed (self : ReaderObj) (line : string) : option ReaderObj :=
  match line with
  | EmptyString => parse_process_char self EOL
  | String c l =>
      match parse_process_char self (Char c) with
      | Some self' => feed self' l
      | None => None
      end
  end.

Definition is_start_record (st : ParserState) : bool :=
  match st with START_RECORD => true | _ => false end.

Definition is_in_quoted_field (st : ParserState) : bool :=
  match st with IN_QUOTED_FIELD => true | _ => false end.

(** [list(reader)]: the records that successive [next(reader)] calls
    return. Each call resets the parser and takes lines until the state is
    [START_RECORD] again; at the end of the input a record still under way
    is returned if its current field is non-empty or it is inside quotes.
    [None] stands for [csv.Error]. *)
Fixpoint records (self : ReaderObj) (lines : list string) : option (list (list string)) :=
  match lines with
  | [] =>
      if negb (empty (field self)) || is_in_quoted_field (state self)
      then Some [fields (parse_save_field self)]
      else Some []
  | line :: rest =>
      match feed self line with
      | None => None
      | Some self' =>
          if is_start_record (state self')
          then option_map (cons (fields self')) (records parse_reset rest)
          else records self' rest
      end
  end.

Definition reader (text : string) : option (list (list string)) :=
  records parse_reset (readlines text).

End Reader.

Module Writer.

(** Characters that make a field quoted: delimiter, quote character, and
    the characters of the line terminator. *)
Definition special (c : ascii) : bool :=
  Ascii.eqb c "," || Ascii.eqb c "034" || is_newline c.

Fixpoint needs_quotes (s : string) : bool :=
  match s with
  | EmptyString => false
  | String c s' => special c || needs_quotes s'
  end.

(** The characters of a field with every quote character doubled. *)
Fixpoint doubled (s : string) : string :=
  match s with
  | EmptyString => EmptyString
  | String c s' =>
      if Ascii.eqb c "034" then String c (String c (doubled s'))
      else String c (doubled s')
  end.

(** [join_append]: the text of one field. *)
Definition join_append (s : string) : string :=
  if needs_quotes s then String "034" (doubled s +:+ String "034" EmptyString) else s.

Fixpoint join (fs : list string) : string :=
  match fs with
  | [] => EmptyString
  | [f] => join_append f
  | f :: rest => join_append f +:+ String "," (join rest)
  end.

Definition lineterminator : string := String "013" (String "010" EmptyString).

(** [writer.writerow(fields)]: the line written. A record that would be
    empty although it has a field is written as a quoted empty field. *)
Definition writerow (fs : list string) : string :=
  let rec := join fs in
  match fs, rec with
  | _ :: _, EmptyString => String "034" (String "034" lineterminator)
  | _, _ => rec +:+ lineterminator
  end.

End Writer.

(** The text of a file written piece by piece. *)
Definition cat (pieces : list string) : string :=
  fold_right String.append EmptyString pieces.

(** The text a written cell takes: [None] is written as the empty
    string. *)
Definition cell_text (v : pyval) : string := or_empty v.

(** [{c: f(c) for c in cols}]. *)
Definition dict_comp (cols : list string) (f : string -> pyval) : row :=
  fold_left (fun d c => <[c := f c]> d) cols ∅.

(** A row of [csv.DictReader]: [dict(zip(fieldnames, r))], then [None]
    for the field names a short record leaves without value. The extra
    values of a long record, kept under the key [None], are not modelled:
    the program only looks rows up by column name. *)
Definition dict_row (fieldnames r : list string) : row :=
  let d := fold_left (fun d kv => <[fst kv := Some (snd kv)]> d) (zip fieldnames r) ∅ in
  fold_left (fun d k => <[k := None]> d) (drop (length r) fieldnames) d.

Definition is_nil {A : Type} (l : list A) : bool :=
  match l with [] => true | _ => false end.

(** [csv.DictReader(f)] read to the end: [reader.fieldnames] (the first
    record, [None] for an empty file) and [list(reader)] (a row for every
    later record that is not empty). The outer [None] is [csv.Error]. *)
Definition DictReader (text : string) : option (option (list string) * list row) :=
  match Reader.reader text with
  | None => None
  | Some [] => Some (None, [])
  | Some (fieldnames :: recs) =>
      Some (Some fieldnames,
            map (dict_row fieldnames) (List.filter (fun r => negb (is_nil r)) recs))
  end.

(** [DictWriter(f, fieldnames=header)]: [writeheader()] followed by
    [writerow(d)] for each dictionary; a missing key is written as the
    empty string. The dictionaries the program writes are built over
    [header], so none has an extra key. *)
Definition DictWriter_writerow (header : list string) (d : row) : string :=
  Writer.writerow (map (fun k => cell_text (dict_get d k (Some ""))) header).

Definition DictWriter_writeheader (header : list string) : string :=
  Writer.writerow header.

(** ** CSV helpers *)

(** The files: path to contents. *)
Abbreviation files := (gmap string string).

Definition ensure_csv (path : string) (header : list string) (fs : files) : files :=
  match fs !! path with
  | Some _ => fs
  | None => <[path := DictWriter_writeheader header]> fs
  end.

Definition list_eqb (a b : list string) : bool := bool_decide (a = b).

(** [k not in r]. *)
Definition not_in (k : string) (r : row) : bool :=
  match r !! k with Some _ => false | None => true end.

(** The body of the loop of [read_rows] for one row of the reader. *)
Definition read_row (header : list string) (r : row) : row :=
  let r := if list_eqb header JOB_COLS && not_in "Spool ID" r
           then <["Spool ID" := Some ""]> r else r in
  let row := dict_comp header (fun col => dict_get r col (Some "")) in
  if list_eqb header SPOOL_COLS && not_in "Other Material" r
  then <["Other Material" := Some ""]> row else row.

(** [read_rows(path, header)]: the rows and the files afterwards; [None]
    is an exception. *)
Definition read_rows (path : string) (header : list string) (fs : files)
  : option (list row * files) :=
  let fs := ensure_csv path header fs in
  match fs !! path with
  | None => None
  | Some text =>
      match DictReader text with
      | None => None
      | Some (_, rs) => Some (map (read_row header) rs, fs)
      end
  end.

(** The text [write_rows] writes. *)
Definition rows_text (header : list string) (rows : list row) : string :=
  DictWriter_writeheader header
  +:+ cat (map (fun r =>
        DictWriter_writerow header (dict_comp header (fun c => dict_get r c (Some "")))) rows).

Definition write_rows (path : string) (header : list string) (rows : list row)
    (fs : files) : files :=
  <[path := rows_text header rows]> fs.

(** ** The start-up migration block *)

(** What the block does to one file: leave it alone, or write it anew. *)
Inductive write_action :=
| NoWrite
| WriteFile (text : string).

(** The file after the action; [None] is a file that does not exist. *)
Definition after (a : write_action) (file : option string) : option string :=
  match a with
  | NoWrite => file
  | WriteFile text => Some text
  end.

(** [value in fieldnames if fieldnames else False]. *)
Definition has_column (col : string) (fieldnames : option (list string)) : bool :=
  match fieldnames with
  | Some fn => str_in col fn
  | None => false
  end.

(** The jobs file: created with its header when missing; rewritten under
    [JOB_COLS] with an empty [Spool ID] when its header lacks that column.
    The outer [None] is an exception. *)
Definition jobs_migration (file : option string) : option write_action :=
  match file with
  | None => Some (WriteFile (DictWriter_writeheader JOB_COLS))
  | Some text =>
      match DictReader text with
      | None => None
      | Some (fieldnames, rows) =>
          let had_spool := has_column "Spool ID" fieldnames in
          if negb had_spool then
            Some (WriteFile
              (DictWriter_writeheader JOB_COLS
               +:+ cat (map (fun r =>
                     let r := <["Spool ID" := Some ""]> r in
                     DictWriter_writerow JOB_COLS
                       (dict_comp JOB_COLS (fun c => dict_get r c (Some "")))) rows)))
          else Some NoWrite
      end
  end.

(** [not v]. *)
Definition falsy (v : pyval) : bool :=
  match v with
  | Some s => empty s
  | None => true
  end.

(** The spools file: created with its header when missing; rewritten
    under [SPOOL_COLS] when its header lacks [Other Material]. *)
Definition spools_migration (file : option string) : option write_action :=
  match file with
  | None => Some (WriteFile (DictWriter_writeheader SPOOL_COLS))
  | Some text =>
      match DictReader text with
      | None => None
      | Some (fieldnames, rows) =>
          if negb (has_column "Other Material" fieldnames) then
            Some (WriteFile
              (DictWriter_writeheader SPOOL_COLS
               +:+ cat (map (fun r =>
                     let r := r ∪ dict_comp SPOOL_COLS (fun _ => Some "") in
                     let r := if falsy (dict_get r "Other Material" None)
                                 && negb (val_eqb (dict_get r "Material" None) "Other")
                              then <["Other Material" := Some ""]> r else r in
                     DictWriter_writerow SPOOL_COLS
                       (dict_comp SPOOL_COLS (fun c => dict_get r c (Some "")))) rows)))
          else Some NoWrite
      end
  end.

(** Carrying out an action on the file at [path]. *)
Definition write_to (path : string) (a : write_action) (fs : files) : files :=
  match a with
  | NoWrite => fs
  | WriteFile text => <[path := text]> fs
  end.

(** The whole block on the files: the jobs file, then the spools file. *)
Definition migrate (jobs_csv spools_csv : string) (fs : files) : option files :=
  match jobs_migration (fs !! jobs_csv) with
  | None => None
  | Some a =>
      let fs1 := write_to jobs_csv a fs in
      match spools_migration (fs1 !! spools_csv) with
      | None => None
      | Some b => Some (write_to spools_csv b fs1)
      end
  end.

(** The rows of a migrated file, as the specification words them: every
    row of the old file in order, under the new schema, with the added
    column empty and every other value kept (a value the old row lacks
    reads as the empty string). *)
Definition migrated_rows (header : list string) (col : string) (old : list row)
  : list row :=
  map (fun r => dict_comp header (fun c =>
         Some (if String.eqb c col then EmptyString
               else cell_text (dict_get r c (Some ""))))) old.

(** ** Auxiliary notions for the proofs *)

(** The state the parser is in after the text of a field. *)
Definition after_field (f : string) : Reader.ParserState :=
  if Writer.needs_quotes f then Reader.QUOTE_IN_QUOTED_FIELD
  else match f with
       | EmptyString => Reader.START_FIELD
       | _ => Reader.IN_FIELD
       end.

(** A line as a file yields it: no line ending except at its very end. *)
Fixpoint line_ok (l : string) : bool :=
  match l with
  | EmptyString => true
  | String c l' =>
      if is_newline c
      then empty l' || (Ascii.eqb c "013" && String.eqb l' (String "010" EmptyString))
      else line_ok l'
  end.

(** What the specification asks of a migration step that adds the column
    [col] under the schema [header]: it ends without an exception; run
    again on its own result it writes nothing; a missing file is created
    with the header alone; a file whose header has the column is not
    written; a file whose header lacks it is written anew and reads back
    under [header] as [migrated_rows]. *)
Definition migration_ok (step : option string -> option write_action)
    (header : list string) (col : string) (file : option string) : Prop :=
  exists a : write_action,
    step file = Some a
    /\ step (after a file) = Some NoWrite
    /\ (file = None -> a = WriteFile (DictWriter_writeheader header))
    /\ (forall text fieldnames rows,
          file = Some text -> DictReader text = Some (fieldnames, rows) ->
          (has_column col fieldnames = true -> a = NoWrite)
          /\ (has_column col fieldnames = false ->
              exists text',
                a = WriteFile text'
                /\ DictReader text' = Some (Some header, migrated_rows header col rows))).

(** A legacy jobs file: no [Spool ID] column, a short row, a blank line. *)
Definition legacy_jobs : string :=
  "Date,Name of Job,Grams Potential,Status,Lost (g)" +:+ Writer.lineterminator
  +:+ "2024-01-01,bracket,50,failed,5" +:+ Writer.lineterminator
  +:+ Writer.lineterminator
  +:+ "2024-01-02,hook" +:+ Writer.lineterminator.

(** A row as it comes back from a file it was saved to: the schema's
    columns, each with the text of its cell. *)
Definition normalized (header : list string) (r : row) : row :=
  dict_comp header (fun k => Some (cell_text (dict_get r k (Some "")))).

(** A jobs file with the full header and one short row. *)
Definition short_row_jobs : files :=
  {[ "filament_log.csv" :=
       "Date,Name of Job,Grams Potential,Status,Lost (g),Spool ID"
       +:+ Writer.lineterminator
       +:+ "2024-01-02,hook" +:+ Writer.lineterminator ]}.

(** ** More of the row store *)

(** A row that has a [str] for every column of the schema and no other
    key: what the dialogs produce and what a saved file holds. *)
Definition complete (header : list string) (r : row) : Prop :=
  forall k : string,
    (In k header -> exists s : string, r !! k = Some (Some s))
    /\ (~ In k header -> r !! k = None).

(** A jobs file whose header is the legacy one (no [Spool ID]). *)
Definition legacy_files : files := {[ "filament_log.csv" := legacy_jobs ]}.

(** Two complete job rows, the second with a cell that needs quoting. *)
Definition two_jobs : list row :=
  [dict_comp JOB_COLS (fun c => Some (if String.eqb c "Status" then "success" else "1"));
   dict_comp JOB_COLS (fun c =>
     Some (if String.eqb c "Name of Job"
           then "vase, " +:+ String quote_char ("tall" +:+ String quote_char EmptyString)
                +:+ Writer.lineterminator +:+ "v2"
           else "2"))].

(** ** More of the dialogs *)

(** [d.strftime("%Y-%m-%d")]. *)
Definition strftime_Y_m_d (d : datetime) : string :=
  format_0d 4 (year d) +:+ "-" +:+ format_0d 2 (month d) +:+ "-" +:+ format_0d 2 (day d).

(** [tk.StringVar(value=v)]: with [None] the variable keeps its default,
    the empty string. *)
Definition StringVar (v : pyval) : string := or_empty v.

(** The variables [JobDialog.__init__] sets up from [initial] ([init] is
    [initial or {}]). *)
Definition JobDialog_init (now : datetime) (init : row) : JobDialog :=
  {| date_var := StringVar (dict_get init "Date" (Some (strftime_Y_m_d now)));
     name_var := StringVar (dict_get init "Name of Job" (Some ""));
     potential_var := StringVar (dict_get init "Grams Potential" (Some ""));
     status_var := StringVar (dict_get init "Status" (Some "pending"));
     lost_var := StringVar (dict_get init "Lost (g)" (Some ""));
     spool_var := StringVar (dict_get init "Spool ID" (Some "")) |}.

(** [SpoolDialog.on_material_change]: the variables afterwards, and
    whether the other-material entry is enabled. *)
Definition on_material_change (dlg : SpoolDialog) : SpoolDialog * bool :=
  if String.eqb (material_var dlg) "Other" then (dlg, true)
  else ({| id_var := id_var dlg; material_var := material_var dlg;
           other_mat_var := EmptyString;
           color_var := color_var dlg; other_color_var := other_color_var dlg;
           size_var := size_var dlg; notes_var := notes_var dlg;
           created_var := created_var dlg |}, false).

(** [SpoolDialog.on_color_change]. *)
Definition on_color_change (dlg : SpoolDialog) : SpoolDialog * bool :=
  if String.eqb (color_var dlg) "Other" then (dlg, true)
  else ({| id_var := id_var dlg; material_var := material_var dlg;
           other_mat_var := other_mat_var dlg;
           color_var := color_var dlg; other_color_var := EmptyString;
           size_var := size_var dlg; notes_var := notes_var dlg;
           created_var := created_var dlg |}, false).

(** The variables [SpoolDialog.__init__] sets up from [initial], after its
    two calls of the change handlers. *)
Definition SpoolDialog_init (now : datetime) (init : row) : SpoolDialog :=
  let dlg :=
    {| id_var := StringVar (dict_get init "Spool ID" (Some ""));
       material_var := StringVar (dict_get init "Material" (Some "PLA"));
       other_mat_var := StringVar (dict_get init "Other Material" (Some ""));
       color_var := StringVar (dict_get init "Color" (Some "Black"));
       other_color_var := StringVar (dict_get init "Other Color" (Some ""));
       size_var := StringVar (dict_get init "Spool Size (g)" (Some "1000"));
       notes_var := StringVar (dict_get init "Notes" (Some ""));
       created_var := StringVar (dict_get init "Created" (Some (strftime_Y_m_d now))) |} in
  fst (on_color_change (fst (on_material_change dlg))).

(** The [initial] dictionary [App.add_spool] opens the dialog with, given
    the ids [existing] it read from the table; [None] when [gen_spool_id]
    raises, and no dialog is opened. *)
Definition add_spool_initial (now : datetime) (existing : list string) : option row :=
  match gen_spool_id now existing with
  | None => None
  | Some default_id =>
      Some (<["Spool ID" := Some default_id]> (<["Material" := Some "PLA"]>
           (<["Color" := Some "Black"]> (<["Other Color" := Some ""]>
           (<["Spool Size (g)" := Some "1000"]> (<["Notes" := Some ""]>
           (<["Created" := Some (strftime_Y_m_d now)]> ∅)))))))
  end.

(** [bool(v)]. *)
Definition truthy (v : pyval) : bool := negb (falsy v).

(** [App.refresh_spool_filter], once the attributes it tests for exist:
    from the cached spool rows and the current filter, the values offered
    by the combo box and the filter afterwards. *)
Definition refresh_spool_filter (spools_rows : list row) (cur : string)
  : list string * string :=
  let spools :=
    "(All)" :: map (fun r => or_empty (dict_get r "Spool ID" (Some "")))
                   (List.filter (fun r => truthy (dict_get r "Spool ID" (Some "")))
                                spools_rows) in
  (spools, if negb (str_in cur spools) then "(All)" else cur).

(** No white space anywhere in the string. *)
Definition no_space (s : string) : bool := Str.all (fun c => negb (isspace c)) s.

(** A jobs file in the current format whose rows are all full. *)
Definition full_rows_jobs : files :=
  {[ "filament_log.csv" :=
       "Date,Name of Job,Grams Potential,Status,Lost (g),Spool ID"
       +:+ Writer.lineterminator
       +:+ "2024-01-01,bracket,50,failed,5,SP-20240101-0001" +:+ Writer.lineterminator
       +:+ "2024-01-02,hook,12,success,," +:+ Writer.lineterminator ]}.
(** * Proofs *)

(** ** Strings *)

Section StrFacts.

Lemma str_app_cons (c : ascii) (s t : string) :
  String c s +:+ t = String c (s +:+ t).
Proof. reflexivity. Qed.

Lemma str_app_nil_l (s : string) : "" +:+ s = s.
Proof. reflexivity. Qed.

Lemma str_app_nil_r (s : string) : s +:+ "" = s.
Proof. induction s as [|c s IH]; [reflexivity|]. rewrite str_app_cons, IH. reflexivity. Qed.

Lemma str_app_assoc (s t u : string) : (s +:+ t) +:+ u = s +:+ (t +:+ u).
Proof.
  induction s as [|c s IH]; [reflexivity|].
  rewrite !str_app_cons, IH. reflexivity.
Qed.

Lemma str_length_app (s t : string) :
  String.length (s +:+ t) = (String.length s + String.length t)%nat.
Proof.
  induction s as [|c s IH]; [reflexivity|].
  rewrite str_app_cons. simpl. rewrite IH. reflexivity.
Qed.

Lemma str_all_app p s t : Str.all p (s +:+ t) = Str.all p s && Str.all p t.
Proof.
  induction s as [|c s IH]; [reflexivity|].
  rewrite str_app_cons. simpl. rewrite IH, andb_assoc. reflexivity.
Qed.

Lemma str_length_repeat c n : String.length (Str.repeat c n) = n.
Proof. induction n as [|n IH]; simpl; congruence. Qed.

Lemma str_all_repeat p c n : p c = true -> Str.all p (Str.repeat c n) = true.
Proof. intros Hc. induction n as [|n IH]; simpl; [reflexivity|]. rewrite Hc, IH. reflexivity. Qed.

End StrFacts.

(** *** Facts about digits, [int], [str] and the padded format *)

Section Digits.

Lemma is_digit_digit_char d : d < 10 -> is_digit (digit_char d) = true.
Proof.
  intros Hd. unfold is_digit, digit_char.
  rewrite N_ascii_embedding by lia.
  apply andb_true_intro; split; apply N.leb_le; lia.
Qed.

Lemma digit_val_digit_char d : d < 10 -> digit_val (digit_char d) = d.
Proof.
  intros Hd. unfold digit_val, digit_char.
  rewrite N_ascii_embedding by lia. lia.
Qed.

Lemma int_go_app a s t : int_go a (s +:+ t) = int_go (int_go a s) t.
Proof.
  revert a. induction s as [|c s IH]; intros a; [reflexivity|].
  rewrite str_app_cons. simpl. apply IH.
Qed.

Lemma int_go_zeros k : int_go 0 (Str.repeat "0"%char k) = 0.
Proof. induction k as [|k IH]; [reflexivity|]. simpl. exact IH. Qed.

Lemma div10_lt_pow2 f n : n < 2 ^ N.of_nat (S f) -> n / 10 < 2 ^ N.of_nat f.
Proof.
  intros Hn. rewrite Nat2N.inj_succ, N.pow_succ_r' in Hn.
  apply N.Div0.div_lt_upper_bound. lia.
Qed.

Lemma str_go_nonempty f n : str_go (S f) n <> EmptyString.
Proof.
  simpl. destruct (n <? 10); [discriminate|].
  destruct (str_go f (n / 10)); discriminate.
Qed.

Lemma str_go_all_digits f n : Str.all is_digit (str_go f n) = true.
Proof.
  revert n. induction f as [|f IH]; intros n; [reflexivity|].
  simpl. destruct (n <? 10) eqn:Hlt.
  - apply N.ltb_lt in Hlt. simpl. rewrite is_digit_digit_char by exact Hlt. reflexivity.
  - rewrite str_all_app, IH. simpl.
    rewrite is_digit_digit_char; [reflexivity|].
    apply N.mod_lt. lia.
Qed.

Lemma int_str_go f n : n < 2 ^ N.of_nat f -> int_go 0 (str_go f n) = n.
Proof.
  revert n. induction f as [|f IH]; intros n Hn.
  - simpl in Hn. simpl. lia.
  - simpl str_go. destruct (n <? 10) eqn:Hlt.
    + apply N.ltb_lt in Hlt. simpl. rewrite digit_val_digit_char by exact Hlt. lia.
    + rewrite int_go_app, IH by (apply div10_lt_pow2; exact Hn).
      simpl. rewrite digit_val_digit_char by (apply N.mod_lt; lia).
      pose proof (N.div_mod n 10). lia.
Qed.

Lemma lt_pow2_log2 n : n < 2 ^ N.of_nat (S (N.to_nat (N.log2 n))).
Proof.
  rewrite Nat2N.inj_succ, N2Nat.id.
  destruct (N.eq_dec n 0) as [->|Hn]; [reflexivity|].
  apply N.log2_spec. lia.
Qed.

Lemma decimal_value_str_int n : decimal_value (str_int n) = n.
Proof. apply int_str_go, lt_pow2_log2. Qed.

Lemma is_digit_unicode c : is_digit c = true -> is_unicode_digit c = true.
Proof. intros H. unfold is_unicode_digit. rewrite H. reflexivity. Qed.

Lemma all_digits_unicode s :
  Str.all is_digit s = true -> Str.all is_unicode_digit s = true.
Proof.
  induction s as [|c s IH]; [reflexivity|].
  cbn [Str.all]. intros H. apply andb_prop in H as [Hc Hs].
  rewrite (is_digit_unicode _ Hc), (IH Hs). reflexivity.
Qed.

Lemma isdecimal_all s : isdecimal s = true -> Str.all is_digit s = true.
Proof. destruct s; [discriminate|]. intros H. exact H. Qed.

Lemma all_isdecimal s :
  s <> EmptyString -> Str.all is_digit s = true -> isdecimal s = true.
Proof. destruct s; [congruence|]. intros _ H. exact H. Qed.

(** What [str.isdecimal] accepts, [str.isdigit] accepts. *)
Lemma isdecimal_isdigit s : isdecimal s = true -> isdigit s = true.
Proof.
  intros H. pose proof (isdecimal_all s H) as Hall.
  destruct s; [discriminate|]. apply all_digits_unicode, Hall.
Qed.

Lemma isdecimal_str_int n : isdecimal (str_int n) = true.
Proof.
  apply all_isdecimal; [apply str_go_nonempty|apply str_go_all_digits].
Qed.

(** [int] returns exactly on the decimal strings within the limit. *)
Lemma int_decimal s :
  isdecimal s = true -> N.of_nat (String.length s) <= max_str_digits ->
  int s = Some (decimal_value s).
Proof.
  intros Hd Hl. unfold int. rewrite Hd. apply N.leb_le in Hl. rewrite Hl. reflexivity.
Qed.

Lemma int_Some_inv s n :
  int s = Some n ->
  isdecimal s = true /\ N.of_nat (String.length s) <= max_str_digits
  /\ n = decimal_value s.
Proof.
  unfold int. destruct (isdecimal s); [|discriminate].
  destruct (N.of_nat (String.length s) <=? max_str_digits) eqn:Hl; [|discriminate].
  cbn [andb]. intros [= <-]. apply N.leb_le in Hl. repeat split; assumption.
Qed.

(** Fewer than [10^k] means at most [k] digits. *)
Lemma length_str_go_le f n k :
  n < 10 ^ N.of_nat (S k) -> (String.length (str_go f n) <= S k)%nat.
Proof.
  revert n k. induction f as [|f IH]; intros n k Hn; [simpl; lia|].
  simpl str_go. destruct (n <? 10) eqn:Hlt; [simpl; lia|].
  apply N.ltb_ge in Hlt.
  rewrite str_length_app. simpl.
  destruct k as [|k].
  - simpl in Hn. lia.
  - assert (n / 10 < 10 ^ N.of_nat (S k)) as Hd.
    { apply N.Div0.div_lt_upper_bound.
      rewrite (Nat2N.inj_succ (S k)), N.pow_succ_r' in Hn. exact Hn. }
    specialize (IH _ _ Hd). lia.
Qed.

(** At least [10^k] means more than [k] digits, given enough fuel. *)
Lemma length_str_go_gt f n k :
  n < 2 ^ N.of_nat f -> 10 ^ N.of_nat k <= n ->
  (k < String.length (str_go f n))%nat.
Proof.
  revert n k. induction f as [|f IH]; intros n k Hf Hn.
  - simpl in Hf. assert (n = 0) as -> by lia.
    pose proof (N.pow_nonzero 10 (N.of_nat k)). lia.
  - simpl str_go. destruct (n <? 10) eqn:Hlt.
    + apply N.ltb_lt in Hlt. destruct k as [|k]; [simpl; lia|].
      rewrite Nat2N.inj_succ, N.pow_succ_r' in Hn.
      pose proof (N.pow_nonzero 10 (N.of_nat k)). lia.
    + rewrite str_length_app. simpl.
      destruct k as [|k]; [lia|].
      assert (10 ^ N.of_nat k <= n / 10) as Hd.
      { rewrite Nat2N.inj_succ, N.pow_succ_r' in Hn.
        apply N.div_le_lower_bound; lia. }
      specialize (IH _ _ (div10_lt_pow2 _ _ Hf) Hd). lia.
Qed.

Lemma length_str_int_le n k :
  n < 10 ^ N.of_nat (S k) -> (String.length (str_int n) <= S k)%nat.
Proof. apply length_str_go_le. Qed.

Lemma length_str_int_gt n k :
  10 ^ N.of_nat k <= n -> (k < String.length (str_int n))%nat.
Proof. apply length_str_go_gt, lt_pow2_log2. Qed.

Lemma decimal_value_format_0d w n : decimal_value (format_0d w n) = n.
Proof.
  unfold format_0d, decimal_value. rewrite int_go_app, int_go_zeros.
  apply decimal_value_str_int.
Qed.

Lemma all_digits_format_0d w n : Str.all is_digit (format_0d w n) = true.
Proof.
  unfold format_0d. rewrite str_all_app, str_all_repeat by reflexivity.
  apply str_go_all_digits.
Qed.

Lemma format_0d_nonempty w n : format_0d w n <> EmptyString.
Proof.
  unfold format_0d, str_int.
  pose proof (str_go_nonempty (N.to_nat (N.log2 n)) n) as Hne.
  destruct (Str.repeat _ _); [exact Hne|discriminate].
Qed.

Lemma isdecimal_format_0d w n : isdecimal (format_0d w n) = true.
Proof.
  apply all_isdecimal; [apply format_0d_nonempty|apply all_digits_format_0d].
Qed.

Lemma isdigit_format_0d w n : isdigit (format_0d w n) = true.
Proof. apply isdecimal_isdigit, isdecimal_format_0d. Qed.

Lemma length_format_0d w n :
  String.length (format_0d w n) = Nat.max w (String.length (str_int n)).
Proof.
  unfold format_0d. rewrite str_length_app, str_length_repeat. lia.
Qed.

(** A number written within the limit is read back by [int]. *)
Lemma int_format_0d w n :
  N.of_nat w <= max_str_digits ->
  N.of_nat (String.length (str_int n)) <= max_str_digits ->
  int (format_0d w n) = Some n.
Proof.
  intros Hw Hn. rewrite int_decimal.
  - rewrite decimal_value_format_0d. reflexivity.
  - apply isdecimal_format_0d.
  - rewrite length_format_0d. lia.
Qed.

End Digits.

(** *** Facts about [startswith] and [split] *)

Section Splitting.

Lemma startswith_app (pre s : string) : startswith (pre +:+ s) pre = true.
Proof.
  unfold startswith. induction pre as [|c pre IH]; [destruct s; reflexivity|].
  rewrite str_app_cons. simpl. destruct (ascii_dec c c); [exact IH|congruence].
Qed.

Lemma startswith_inv (s pre : string) :
  startswith s pre = true -> exists r, s = pre +:+ r.
Proof.
  unfold startswith. revert s. induction pre as [|c pre IH]; intros s H.
  - exists s. reflexivity.
  - destruct s as [|b s]; simpl in H; [discriminate|].
    destruct (ascii_dec c b) as [->|]; [|discriminate].
    destruct (IH _ H) as [r ->]. exists r. reflexivity.
Qed.

(** Two strings of one length, each followed by something: the first is a
    prefix of the second only if they are equal. *)
Lemma prefix_same_length (d d' x y : string) :
  String.length d = String.length d' ->
  String.prefix (d +:+ x) (d' +:+ y) = true -> d = d'.
Proof.
  revert d'. induction d as [|c d IH]; intros [|c' d'] Hlen H;
    try discriminate; [reflexivity|].
  rewrite !str_app_cons in H. simpl in H.
  destruct (ascii_dec c c') as [->|]; [|discriminate].
  f_equal. apply IH; [simpl in Hlen; congruence|exact H].
Qed.

Lemma app_inj_length (s1 s2 t1 t2 : string) :
  String.length s1 = String.length s2 ->
  s1 +:+ t1 = s2 +:+ t2 -> s1 = s2 /\ t1 = t2.
Proof.
  revert s2. induction s1 as [|c s1 IH]; intros [|c2 s2] Hlen H;
    try discriminate; [split; [reflexivity|exact H]|].
  rewrite !str_app_cons in H. injection H as -> H.
  destruct (IH s2) as [-> ->]; [simpl in Hlen; congruence|exact H|].
  split; reflexivity.
Qed.

Variable sep : ascii.

Lemma split_nonempty s : split sep s <> [].
Proof.
  destruct s as [|c s]; simpl; [discriminate|].
  destruct (Ascii.eqb c sep); [discriminate|].
  destruct (split sep s); discriminate.
Qed.

Lemma split_no_sep s : no_sep sep s = true -> split sep s = [s].
Proof.
  induction s as [|c s IH]; intros H; [reflexivity|].
  unfold no_sep in H. simpl in H. apply andb_prop in H as [Hc Hs].
  simpl. apply negb_true_iff in Hc. rewrite Hc, (IH Hs). reflexivity.
Qed.

Lemma split_app_sep s t :
  split sep (s +:+ String sep t) = split sep s ++ split sep t.
Proof.
  induction s as [|c s IH].
  - rewrite str_app_nil_l. simpl. rewrite Ascii.eqb_refl. reflexivity.
  - rewrite str_app_cons. simpl. rewrite IH.
    destruct (Ascii.eqb c sep); [reflexivity|].
    pose proof (split_nonempty s) as Hne.
    destruct (split sep s) as [|h l]; [congruence|reflexivity].
Qed.

Lemma last_split_app_sep s t :
  no_sep sep t = true -> List.last (split sep (s +:+ String sep t)) "" = t.
Proof.
  intros Ht. rewrite split_app_sep, (split_no_sep _ Ht).
  apply last_last.
Qed.

End Splitting.

Lemma all_digits_no_dash s : Str.all is_digit s = true -> no_sep "-"%char s = true.
Proof.
  induction s as [|c s IH]; intros H; [reflexivity|].
  simpl in H. apply andb_prop in H as [Hc Hs].
  unfold no_sep in *. simpl. rewrite (IH Hs), andb_true_r.
  destruct (Ascii.eqb_spec c "-"%char) as [->|]; [discriminate Hc|reflexivity].
Qed.

(** *** Facts about the date part of the prefix *)

Section Dates.

Lemma length_format_small w n :
  n < 10 ^ N.of_nat w -> (0 < w)%nat -> String.length (format_0d w n) = w.
Proof.
  intros Hn Hw. rewrite length_format_0d.
  destruct w as [|w]; [lia|].
  pose proof (length_str_int_le n w Hn). lia.
Qed.

Lemma length_strftime d : valid_date d -> String.length (strftime_Ymd d) = 8%nat.
Proof.
  intros (Hy & Hm & Hd). unfold strftime_Ymd.
  rewrite !str_length_app, !length_format_small; simpl; lia.
Qed.

Lemma all_digits_strftime d : Str.all is_digit (strftime_Ymd d) = true.
Proof.
  unfold strftime_Ymd. rewrite !str_all_app, !all_digits_format_0d. reflexivity.
Qed.

Lemma strftime_inj d d' :
  valid_date d -> valid_date d' -> strftime_Ymd d = strftime_Ymd d' -> d = d'.
Proof.
  intros (Hy & Hm & Hd) (Hy' & Hm' & Hd') H. unfold strftime_Ymd in H.
  apply app_inj_length in H as [H1 H];
    [|rewrite !length_format_small; simpl; lia].
  apply app_inj_length in H as [H2 H3];
    [|rewrite !length_format_small; simpl; lia].
  apply (f_equal decimal_value) in H1, H2, H3.
  rewrite !decimal_value_format_0d in H1, H2, H3.
  destruct d, d'; simpl in *; congruence.
Qed.

(** An id that carries the prefix of another date does not start with
    today's prefix. *)
Lemma other_date_prefix now d' rest :
  valid_date now -> valid_date d' -> d' <> now ->
  startswith (spool_prefix d' +:+ rest) (spool_prefix now) = false.
Proof.
  intros Hnow Hd' Hne. apply not_true_is_false. intros H.
  apply Hne, strftime_inj; [exact Hd'|exact Hnow|].
  unfold startswith, spool_prefix in H.
  rewrite !str_app_assoc in H. rewrite !(str_app_cons _ _ (strftime_Ymd _ +:+ _)) in H.
  simpl in H. symmetry. eapply prefix_same_length; [|exact H].
  rewrite !length_strftime by assumption. reflexivity.
Qed.

End Dates.

(** ** Spool ID generation *)

Section Generator.

Variable now : datetime.

Let pre := spool_prefix now.

Lemma today_numbers_cons (sid : string) (ids : list string) :
  today_numbers pre (sid :: ids)
  = if matching_id pre sid
    then decimal_value (tail_of sid) :: today_numbers pre ids
    else today_numbers pre ids.
Proof.
  unfold today_numbers. cbn [List.filter].
  destruct (matching_id pre sid); reflexivity.
Qed.

(** The loop raises exactly when it meets an id [int] refuses; otherwise
    it collects today's numbers. *)
Lemma gen_loop_numbers (ids : list string) (acc : list N) :
  gen_loop pre ids acc
  = if existsb (rejected_id pre) ids then None
    else Some (acc ++ today_numbers pre ids).
Proof.
  revert acc. induction ids as [|sid ids IH]; intros acc.
  - unfold today_numbers. simpl. rewrite app_nil_r. reflexivity.
  - cbn [gen_loop existsb]. rewrite today_numbers_cons.
    unfold gen_step, rejected_id, matching_id. cbv zeta.
    destruct (startswith sid pre); cbn [andb orb]; [|apply IH].
    destruct (isdigit (tail_of sid)) eqn:Hd; cbn [andb orb].
    + destruct (int (tail_of sid)) as [n|] eqn:Hi; cbn [orb]; [|reflexivity].
      apply int_Some_inv in Hi as (Hdec & _ & ->).
      rewrite Hdec, IH, <- app_assoc. reflexivity.
    + destruct (isdecimal (tail_of sid)) eqn:Hdec; [|apply IH].
      apply isdecimal_isdigit in Hdec. congruence.
Qed.

Lemma max_list_fold_right (n : N) (ns : list N) :
  max_list n ns = fold_right N.max 0 (n :: ns).
Proof.
  unfold max_list. revert n. induction ns as [|m ns IH]; intros n; simpl.
  - lia.
  - rewrite IH. simpl. lia.
Qed.

Lemma fold_max_ge (ns : list N) (n : N) : In n ns -> n <= fold_right N.max 0 ns.
Proof.
  induction ns as [|m ns IH]; intros Hin; [destruct Hin|].
  simpl. destruct Hin as [->|Hin]; [lia|]. specialize (IH Hin). lia.
Qed.

Lemma next_number_max (ids : list string) :
  next_number pre ids = fold_right N.max 0 (today_numbers pre ids) + 1.
Proof.
  unfold next_number. destruct (today_numbers pre ids); reflexivity.
Qed.

Lemma gen_spool_id_spec_next (ids : list string) :
  gen_spool_id_spec now ids = pre +:+ format_0d 4 (next_number pre ids).
Proof.
  unfold gen_spool_id_spec, next_number. fold pre.
  destruct (today_numbers pre ids); reflexivity.
Qed.

(** The two outcomes of a call: a [ValueError], or the id the
    specification describes. *)
Lemma gen_spool_id_cases (ids : list string) :
  gen_spool_id now ids
  = if gen_spool_id_raises now ids then None else Some (gen_spool_id_spec now ids).
Proof.
  unfold gen_spool_id, gen_spool_id_raises. fold pre. cbv zeta.
  rewrite gen_loop_numbers.
  destruct (existsb (rejected_id pre) ids); [reflexivity|].
  cbn [orb app].
  assert (match today_numbers pre ids with
          | [] => 1
          | n :: ns => max_list n ns + 1
          end = next_number pre ids) as ->.
  { unfold next_number. destruct (today_numbers pre ids); [reflexivity|].
    rewrite max_list_fold_right. reflexivity. }
  unfold format_int.
  destruct (N.of_nat (String.length (str_int (next_number pre ids))) <=? max_str_digits);
    cbn [negb]; [|reflexivity].
  rewrite gen_spool_id_spec_next. reflexivity.
Qed.

Lemma gen_spool_id_Some (ids : list string) (new_id : string) :
  gen_spool_id now ids = Some new_id ->
  new_id = gen_spool_id_spec now ids
  /\ existsb (rejected_id pre) ids = false
  /\ N.of_nat (String.length (str_int (next_number pre ids))) <= max_str_digits.
Proof.
  rewrite gen_spool_id_cases. unfold gen_spool_id_raises. fold pre.
  destruct (existsb (rejected_id pre) ids); [discriminate|].
  destruct (N.of_nat (String.length (str_int (next_number pre ids))) <=? max_str_digits)
    eqn:Hfit; [|discriminate].
  cbn [orb negb]. intros [= <-]. apply N.leb_le in Hfit.
  repeat split; [exact Hfit].
Qed.

(** No id is refused when [int] reads every last part it is given. *)
Lemma no_rejected_id (ids : list string) :
  (forall sid, In sid ids -> startswith sid pre = true ->
     isdigit (tail_of sid) = true -> int (tail_of sid) <> None) ->
  existsb (rejected_id pre) ids = false.
Proof.
  intros H. apply not_true_is_false. intros Hex.
  apply existsb_exists in Hex as (sid & Hin & Hrej).
  unfold rejected_id in Hrej.
  apply andb_prop in Hrej as [Hrej Hint]. apply andb_prop in Hrej as [Hs Hd].
  specialize (H sid Hin Hs Hd). destruct (int (tail_of sid)); congruence.
Qed.

(** The call returns the id the specification describes whenever [int]
    reads every last part it is given and the next number can be
    written. *)
Lemma gen_spool_id_returns_spec (ids : list string) :
  (forall sid, In sid ids -> startswith sid pre = true ->
     isdigit (tail_of sid) = true -> int (tail_of sid) <> None) ->
  N.of_nat (String.length (str_int (next_number pre ids))) <= max_str_digits ->
  gen_spool_id now ids = Some (gen_spool_id_spec now ids).
Proof.
  intros Hids Hfit. rewrite gen_spool_id_cases. unfold gen_spool_id_raises. fold pre.
  rewrite (no_rejected_id ids Hids). apply N.leb_le in Hfit. rewrite Hfit.
  reflexivity.
Qed.

(** One refused id is enough for the call to raise. *)
Lemma rejected_id_raises (ids : list string) (sid : string) :
  In sid ids -> rejected_id pre sid = true -> gen_spool_id now ids = None.
Proof.
  intros Hin Hrej. rewrite gen_spool_id_cases. unfold gen_spool_id_raises. fold pre.
  assert (existsb (rejected_id pre) ids = true) as ->; [|reflexivity].
  apply existsb_exists. exists sid. split; assumption.
Qed.

(** So is a next number too long to be written. *)
Lemma long_number_raises (ids : list string) :
  max_str_digits < N.of_nat (String.length (str_int (next_number pre ids))) ->
  gen_spool_id now ids = None.
Proof.
  intros Hlong. rewrite gen_spool_id_cases. unfold gen_spool_id_raises. fold pre.
  apply N.leb_gt in Hlong. rewrite Hlong. cbn [negb]. rewrite orb_true_r. reflexivity.
Qed.

Lemma pre_split : pre = ("SP-" +:+ strftime_Ymd now) +:+ "-".
Proof. unfold pre, spool_prefix. rewrite str_app_assoc. reflexivity. Qed.

Lemma tail_of_generated (t : string) :
  Str.all is_digit t = true -> tail_of (pre +:+ t) = t.
Proof.
  intros Ht. unfold tail_of. rewrite pre_split, str_app_assoc.
  change ("-" +:+ t) with (String "-"%char t).
  apply last_split_app_sep, all_digits_no_dash, Ht.
Qed.

Lemma tail_of_gen_spool_id (ids : list string) :
  tail_of (gen_spool_id_spec now ids) = format_0d 4 (next_number pre ids).
Proof. rewrite gen_spool_id_spec_next. apply tail_of_generated, all_digits_format_0d. Qed.

Lemma next_number_above (ids : list string) (n : N) :
  In n (today_numbers pre ids) -> n < next_number pre ids.
Proof.
  intros Hin. unfold next_number.
  pose proof (fold_max_ge _ _ Hin) as Hle.
  destruct (today_numbers pre ids); [destruct Hin|]. lia.
Qed.

Lemma gen_spool_id_not_in (ids : list string) : ~ In (gen_spool_id_spec now ids) ids.
Proof.
  intros Hin.
  assert (In (next_number pre ids) (today_numbers pre ids)) as Hnum.
  { unfold today_numbers. apply in_map_iff. exists (gen_spool_id_spec now ids). split.
    - rewrite tail_of_gen_spool_id. apply decimal_value_format_0d.
    - apply filter_In. split; [exact Hin|].
      unfold matching_id. rewrite tail_of_gen_spool_id, isdecimal_format_0d.
      rewrite gen_spool_id_spec_next, startswith_app. reflexivity. }
  apply next_number_above in Hnum. lia.
Qed.

Lemma date_segment_generated (t : string) :
  date_segment (pre +:+ t) = strftime_Ymd now.
Proof.
  unfold date_segment, pre, spool_prefix.
  rewrite !str_app_assoc. rewrite !(str_app_cons _ _ (strftime_Ymd _ +:+ _)).
  simpl split.
  change ("-" +:+ t) with (String "-"%char t).
  rewrite str_app_nil_l, split_app_sep.
  rewrite split_no_sep by apply all_digits_no_dash, all_digits_strftime.
  reflexivity.
Qed.

Lemma today_numbers_skip (before after : list string) (sid : string) :
  startswith sid pre = false ->
  today_numbers pre (before ++ sid :: after) = today_numbers pre (before ++ after).
Proof.
  intros H. unfold today_numbers. rewrite !List.filter_app. simpl.
  unfold matching_id at 2. rewrite H. reflexivity.
Qed.

Lemma rejected_skip (before after : list string) (sid : string) :
  startswith sid pre = false ->
  existsb (rejected_id pre) (before ++ sid :: after)
  = existsb (rejected_id pre) (before ++ after).
Proof.
  intros H. rewrite !existsb_app. cbn [existsb].
  unfold rejected_id at 2. rewrite H. reflexivity.
Qed.

(** The id written with at least four digits is read back by [int] when
    it could be written at all. *)
Lemma int_tail_generated (ids : list string) :
  N.of_nat (String.length (str_int (next_number pre ids))) <= max_str_digits ->
  int (tail_of (gen_spool_id_spec now ids)) = Some (next_number pre ids).
Proof.
  intros Hfit. rewrite tail_of_gen_spool_id.
  apply int_format_0d; [unfold max_str_digits; lia|exact Hfit].
Qed.

End Generator.

Lemma fold_max_le (ns : list N) (b : N) :
  (forall n, In n ns -> n <= b) -> fold_right N.max 0 ns <= b.
Proof.
  induction ns as [|m ns IH]; intros H; simpl; [lia|].
  assert (m <= b) by (apply H; left; reflexivity).
  assert (fold_right N.max 0 ns <= b) by (apply IH; intros n Hn; apply H; right; exact Hn).
  lia.
Qed.

Lemma valid_today_2024 : valid_date today_2024.
Proof. unfold valid_date, today_2024. simpl. lia. Defined.

(** An id bearing the prefix of another date can be removed from (or
    added to) the ids without changing the outcome of the call. *)
Lemma gen_spool_id_other_date (now d' : datetime) (rest : string)
    (before after : list string) :
  valid_date now -> valid_date d' -> d' <> now ->
  gen_spool_id now (before ++ (spool_prefix d' +:+ rest) :: after)
  = gen_spool_id now (before ++ after).
Proof.
  intros Hnow Hd' Hne.
  pose proof (other_date_prefix now d' rest Hnow Hd' Hne) as Hpre.
  rewrite !gen_spool_id_cases. unfold gen_spool_id_raises.
  rewrite (rejected_skip now _ _ _ Hpre).
  rewrite !gen_spool_id_spec_next, !next_number_max.
  rewrite (today_numbers_skip now _ _ _ Hpre). reflexivity.
Qed.

(** C3. On a day's id whose last part is a superscript two,
    [gen_spool_id] raises: the id starts with today's prefix, its last part
    passes [str.isdigit], and [int] refuses it. The specification has such
    an id ignored and the call return [SP-20240101-0001]; after a regular
    id the outcome is the same, where the specification has
    [SP-20240101-0002] returned. *)
Theorem gen_spool_id_superscript_tail :
  startswith superscript_id (spool_prefix today_2024) = true
  /\ tail_of superscript_id = superscript_two
  /\ isdigit superscript_two = true
  /\ isdecimal superscript_two = false
  /\ int superscript_two = None
  /\ gen_spool_id today_2024 [superscript_id] = None
  /\ gen_spool_id_spec today_2024 [superscript_id] = "SP-20240101-0001"
  /\ gen_spool_id today_2024 ["SP-20240101-0001"; superscript_id] = None
  /\ gen_spool_id_spec today_2024 ["SP-20240101-0001"; superscript_id]
     = "SP-20240101-0002".
Proof. vm_compute. repeat split; reflexivity. Qed.

(** C4. For every list of existing ids and a fixed current date, the id
    returned by [gen_spool_id] is not an element of the list, and its date
    segment (the part between the first two dashes) is today's date in
    [YYYYMMDD] form; and an id is returned whenever [int] reads every last
    part the loop gives it and the next number can be written. *)
Theorem gen_spool_id_fresh (now : datetime) (existing_ids : list string) :
  (forall new_id, gen_spool_id now existing_ids = Some new_id ->
     ~ In new_id existing_ids
     /\ date_segment new_id = strftime_Ymd now)
  /\ ((forall sid, In sid existing_ids ->
         startswith sid (spool_prefix now) = true ->
         isdigit (tail_of sid) = true -> int (tail_of sid) <> None) ->
      N.of_nat (String.length
                  (str_int (next_number (spool_prefix now) existing_ids)))
      <= max_str_digits ->
      exists new_id, gen_spool_id now existing_ids = Some new_id).
Proof.
  split.
  - intros new_id Hgen. apply gen_spool_id_Some in Hgen as (-> & _ & _). split.
    + apply gen_spool_id_not_in.
    + rewrite gen_spool_id_spec_next. apply date_segment_generated.
  - intros Hids Hfit. eexists. apply gen_spool_id_returns_spec; assumption.
Qed.

Lemma gen_spool_id_fresh_witness :
  (~ In "SP-20240101-0002" ["SP-20240101-0001"; "SP-20231231-0900"; "spare"]
   /\ date_segment "SP-20240101-0002" = "20240101")
  /\ exists new_id,
       gen_spool_id today_2024 ["SP-20240101-0001"; "SP-20231231-0900"; "spare"]
       = Some new_id.
Proof.
  pose proof (gen_spool_id_fresh today_2024
                ["SP-20240101-0001"; "SP-20231231-0900"; "spare"])
    as [Hfresh Hreturns].
  split.
  - apply Hfresh. vm_compute. reflexivity.
  - apply Hreturns.
    + intros sid [<-|[<-|[<-|[]]]] Hs _;
        [vm_compute; discriminate
        |vm_compute in Hs; discriminate Hs
        |vm_compute in Hs; discriminate Hs].
    + vm_compute. discriminate.
Defined.

(** C9, as stated, fails on an id of the day whose last part has 4301
    digits: the largest suffix is far above 9999, and the call raises
    instead of returning a longer id. *)
Lemma gen_spool_id_long_suffix_fails :
  (exists n, In n (today_numbers (spool_prefix today_2024) [long_id]) /\ 9999 <= n)
  /\ gen_spool_id today_2024 [long_id] = None
  /\ ~ (exists new_id, gen_spool_id today_2024 [long_id] = Some new_id
                       /\ (4 < String.length (tail_of new_id))%nat).
Proof.
  assert (gen_spool_id today_2024 [long_id] = None) as Hnone
    by (vm_compute; reflexivity).
  split; [|split].
  - exists (decimal_value (tail_of long_id)). split.
    + left. reflexivity.
    + apply N.leb_le. vm_compute. reflexivity.
  - exact Hnone.
  - intros (new_id & Hsome & _). rewrite Hnone in Hsome. discriminate.
Qed.

(** C9, amended. Let every id of the day whose last part passes
    [str.isdigit] have a last part of at most [max_str_digits] decimal
    digits, and let the largest number plus one have at most
    [max_str_digits] digits. Then [gen_spool_id] returns an id, today's
    prefix followed by its suffix and absent from the existing ids; the
    suffix has exactly four digits when every number read from today's ids
    is at most 9998, and is the plain decimal writing of the largest number
    plus one, longer than four digits, when one of them is 9999 or more (no
    wrap-around). Beyond the limit the call fails: it raises when an id of
    the day has a last part of more than [max_str_digits] decimal digits,
    and when the largest number plus one has more than [max_str_digits]
    digits. *)
Theorem gen_spool_id_suffix_width (now : datetime) (existing_ids : list string) :
  let pre := spool_prefix now in
  let nums := today_numbers pre existing_ids in
  let next_num := fold_right N.max 0 nums + 1 in
  ((forall sid, In sid existing_ids -> startswith sid pre = true ->
      isdigit (tail_of sid) = true ->
      isdecimal (tail_of sid) = true
      /\ N.of_nat (String.length (tail_of sid)) <= max_str_digits) ->
   N.of_nat (String.length (str_int next_num)) <= max_str_digits ->
   exists new_id,
     gen_spool_id now existing_ids = Some new_id
     /\ ((forall n, In n nums -> n <= 9998) ->
           String.length (tail_of new_id) = 4%nat
           /\ isdigit (tail_of new_id) = true)
     /\ ((exists n, In n nums /\ 9999 <= n) ->
           (4 < String.length (tail_of new_id))%nat
           /\ tail_of new_id = str_int next_num
           /\ int (tail_of new_id) = Some next_num)
     /\ new_id = pre +:+ tail_of new_id
     /\ ~ In new_id existing_ids)
  /\ ((exists sid, In sid existing_ids /\ startswith sid pre = true
                   /\ isdecimal (tail_of sid) = true
                   /\ max_str_digits < N.of_nat (String.length (tail_of sid))) ->
      gen_spool_id now existing_ids = None)
  /\ (max_str_digits < N.of_nat (String.length (str_int next_num)) ->
      gen_spool_id now existing_ids = None).
Proof.
  intros pre nums next_num.
  assert (next_number pre existing_ids = next_num) as Hnext
    by apply next_number_max.
  split; [|split].
  - intros Hids Hfit. rewrite <- Hnext in Hfit.
    exists (gen_spool_id_spec now existing_ids).
    assert (tail_of (gen_spool_id_spec now existing_ids) = format_0d 4 next_num)
      as Hsuf by (rewrite <- Hnext; apply tail_of_gen_spool_id).
    split; [|split; [|split; [|split]]].
    + apply gen_spool_id_returns_spec; [|exact Hfit].
      intros sid Hin Hs Hd. destruct (Hids sid Hin Hs Hd) as [Hdec Hlen].
      rewrite (int_decimal _ Hdec Hlen). discriminate.
    + intros Hsmall. rewrite Hsuf. split; [|apply isdigit_format_0d].
      apply length_format_small; [|lia].
      pose proof (fold_max_le _ 9998 Hsmall) as Hle.
      change (10 ^ N.of_nat 4) with 10000. subst next_num nums. lia.
    + intros (n & Hin & Hn).
      pose proof (fold_max_ge _ _ Hin) as Hge.
      pose proof (length_str_int_gt next_num 4) as Hlen.
      change (10 ^ N.of_nat 4) with 10000 in Hlen.
      assert (4 < String.length (str_int next_num))%nat as Hlong
        by (apply Hlen; subst next_num nums; lia).
      assert (format_0d 4 next_num = str_int next_num) as Hplain.
      { unfold format_0d.
        replace (4 - String.length (str_int next_num))%nat with 0%nat by lia.
        reflexivity. }
      rewrite Hsuf, Hplain. split; [exact Hlong|]. split; [reflexivity|].
      rewrite <- Hplain, <- Hsuf, <- Hnext. apply int_tail_generated, Hfit.
    + rewrite Hsuf, <- Hnext. apply gen_spool_id_spec_next.
    + apply gen_spool_id_not_in.
  - intros (sid & Hin & Hs & Hdec & Hlen).
    apply (rejected_id_raises now existing_ids sid Hin).
    unfold rejected_id. fold pre. rewrite Hs, (isdecimal_isdigit _ Hdec).
    destruct (int (tail_of sid)) eqn:Hint; [|reflexivity].
    apply int_Some_inv in Hint as (_ & Hle & _). lia.
  - intros Hlong. apply long_number_raises. fold pre. rewrite Hnext. exact Hlong.
Qed.

Lemma gen_spool_id_suffix_width_witness :
  (exists new_id,
     gen_spool_id today_2024 ["SP-20240101-0041"; "SP-20240101-9998"] = Some new_id
     /\ String.length (tail_of new_id) = 4%nat)
  /\ (exists new_id,
        gen_spool_id today_2024 ["SP-20240101-9999"; "SP-20240101-0002"] = Some new_id
        /\ tail_of new_id = "10000")
  /\ gen_spool_id today_2024 ["SP-20240101-0001"; long_id] = None.
Proof.
  split; [|split].
  - destruct (gen_spool_id_suffix_width today_2024
                ["SP-20240101-0041"; "SP-20240101-9998"]) as [Hreturns _].
    destruct Hreturns as (new_id & Hgen & Hsmall & _).
    + intros sid [<-|[<-|[]]] _ _; vm_compute; (split; [reflexivity|discriminate]).
    + vm_compute. discriminate.
    + exists new_id. split; [exact Hgen|]. apply Hsmall.
      intros n Hn. vm_compute in Hn.
      destruct Hn as [<-|[<-|[]]]; vm_compute; discriminate.
  - destruct (gen_spool_id_suffix_width today_2024
                ["SP-20240101-9999"; "SP-20240101-0002"]) as [Hreturns _].
    destruct Hreturns as (new_id & Hgen & _ & Hlarge & _).
    + intros sid [<-|[<-|[]]] _ _; vm_compute; (split; [reflexivity|discriminate]).
    + vm_compute. discriminate.
    + exists new_id. split; [exact Hgen|].
      destruct Hlarge as (_ & Hsuf & _).
      * exists 9999. split; [vm_compute; left; reflexivity|reflexivity].
      * rewrite Hsuf. vm_compute. reflexivity.
  - destruct (gen_spool_id_suffix_width today_2024
                ["SP-20240101-0001"; long_id]) as (_ & Hlong & _).
    apply Hlong. exists long_id. split; [right; left; reflexivity|].
    split; [vm_compute; reflexivity|]. split; [vm_compute; reflexivity|].
    apply N.ltb_lt. vm_compute. reflexivity.
Defined.

(** ** Totals *)

Section Totals.

Variable filter_sid : string.

Lemma totals_step_excluded (r : row) (acc : float * float * float) :
  passes filter_sid r = false -> totals_step filter_sid acc r = acc.
Proof.
  intros H. unfold totals_step. destruct acc as [[tp tl] tc].
  rewrite H. reflexivity.
Qed.

Lemma totals_step_included (r : row) (tp tl tc : float) :
  passes filter_sid r = true ->
  totals_step filter_sid (tp, tl, tc) r
  = ((tp + potential_of r)%float,
     match lost_contribution r with Some l => (tl + l)%float | None => tl end,
     match consumed_contribution r with Some c => (tc + c)%float | None => tc end).
Proof.
  intros H. unfold totals_step, lost_contribution, consumed_contribution.
  rewrite H. cbn [negb].
  destruct (String.eqb (status_of r) "success") eqn:Hs.
  - apply String.eqb_eq in Hs. rewrite Hs. reflexivity.
  - destruct (String.eqb (status_of r) "failed"); reflexivity.
Qed.

Lemma totals_loop (jobs : list row) (tp tl tc : float) :
  fold_left (totals_step filter_sid) jobs (tp, tl, tc)
  = (fold_left PrimFloat.add (map potential_of (included filter_sid jobs)) tp,
     fold_left PrimFloat.add (omap lost_contribution (included filter_sid jobs)) tl,
     fold_left PrimFloat.add (omap consumed_contribution (included filter_sid jobs)) tc).
Proof.
  revert tp tl tc. induction jobs as [|r jobs IH]; intros tp tl tc; [reflexivity|].
  cbn [fold_left]. unfold included in *. cbn [List.filter].
  destruct (passes filter_sid r) eqn:Hp.
  - rewrite totals_step_included, IH by exact Hp.
    cbn [map omap list_omap fold_left].
    destruct (lost_contribution r), (consumed_contribution r); reflexivity.
  - rewrite totals_step_excluded by exact Hp. apply IH.
Qed.

Lemma passes_iff (r : row) :
  passes filter_sid r = true
  <-> filter_sid = "(All)" \/ dict_get r "Spool ID" (Some "") = Some filter_sid.
Proof.
  unfold passes.
  destruct (String.eqb_spec filter_sid "(All)") as [->|Hne].
  - split; [left; reflexivity|reflexivity].
  - unfold val_eqb. destruct (dict_get r "Spool ID" (Some "")) as [t|].
    + destruct (String.eqb_spec t filter_sid) as [->|Hne'].
      * split; [right; reflexivity|reflexivity].
      * split; [discriminate|intros [?|?]; congruence].
    + split; [discriminate|intros [?|?]; congruence].
Qed.

Lemma spool_size_first (spools : list row) :
  spool_size filter_sid spools = first_spool_size filter_sid spools.
Proof.
  unfold first_spool_size. induction spools as [|s spools IH]; [reflexivity|].
  simpl. destruct (val_eqb _ _); [reflexivity|exact IH].
Qed.

End Totals.

Lemma py_max_zero_not_negative (x : float) : (py_max x 0 <? 0)%float = false.
Proof.
  unfold py_max. destruct (x <? 0)%float eqn:Hx; [reflexivity|exact Hx].
Qed.

Lemma update_totals_sums (jobs spools : list row) (filter_sid : string) :
  total_potential (update_totals jobs spools filter_sid)
    = fsum (map potential_of (included filter_sid jobs))
  /\ total_lost (update_totals jobs spools filter_sid)
    = fsum (omap lost_contribution (included filter_sid jobs))
  /\ total_consumed (update_totals jobs spools filter_sid)
    = fsum (omap consumed_contribution (included filter_sid jobs)).
Proof.
  unfold update_totals. rewrite totals_loop. cbn. repeat split.
Qed.

(** C1. For every jobs table and spool filter the three totals are what a
    single pass over the jobs accumulates: a job is included iff the filter
    is the sentinel or the job's spool reference equals the filter; every
    included job adds its parsed potential to [total_potential]; a
    [success] job also adds its potential to [total_consumed]; a [failed]
    job also adds its parsed lost grams to [total_lost] and to
    [total_consumed]; a job of any other status ([init], [pending]) adds to
    [total_potential] only. *)
Theorem update_totals_single_pass (jobs spools : list row) (filter_sid : string) :
  let t := update_totals jobs spools filter_sid in
  let inc := included filter_sid jobs in
  (forall r, In r inc <->
     In r jobs /\ (filter_sid = "(All)"
                   \/ dict_get r "Spool ID" (Some "") = Some filter_sid))
  /\ total_potential t = fsum (map potential_of inc)
  /\ total_consumed t = fsum (omap consumed_contribution inc)
  /\ total_lost t = fsum (omap lost_contribution inc)
  /\ (forall r, status_of r = "success" ->
        consumed_contribution r = Some (potential_of r)
        /\ lost_contribution r = None)
  /\ (forall r, status_of r = "failed" ->
        consumed_contribution r = Some (lost_of r)
        /\ lost_contribution r = Some (lost_of r))
  /\ (forall r, status_of r <> "success" -> status_of r <> "failed" ->
        consumed_contribution r = None /\ lost_contribution r = None).
Proof.
  intros t inc.
  destruct (update_totals_sums jobs spools filter_sid) as (Hp & Hl & Hc).
  split; [|split; [exact Hp|split; [exact Hc|split; [exact Hl|]]]].
  - intros r. unfold inc, included. rewrite List.filter_In, passes_iff. reflexivity.
  - unfold consumed_contribution, lost_contribution. repeat split.
    + rewrite H. reflexivity.
    + rewrite H. reflexivity.
    + rewrite H. reflexivity.
    + rewrite H. reflexivity.
    + apply String.eqb_neq in H, H0. rewrite H, H0. reflexivity.
    + apply String.eqb_neq in H0. rewrite H0. reflexivity.
Qed.

Lemma update_totals_single_pass_witness :
  total_potential (update_totals example_jobs example_spools "(All)") = 150%float
  /\ total_consumed (update_totals example_jobs example_spools "(All)") = 110%float
  /\ total_lost (update_totals example_jobs example_spools "(All)") = 10%float
  /\ consumed_contribution (job_row "7" " Pending" "3" "") = None.
Proof.
  destruct (update_totals_single_pass example_jobs example_spools "(All)")
    as (_ & Hp & Hc & Hl & _ & _ & Hother).
  rewrite Hp, Hc, Hl.
  split; [vm_compute; reflexivity|].
  split; [vm_compute; reflexivity|].
  split; [vm_compute; reflexivity|].
  apply (Hother (job_row "7" " Pending" "3" "")); vm_compute; discriminate.
Defined.

(** C2. For a specific (non-sentinel) spool filter the remaining value is
    [max(size - total_consumed, 0)], where [size] is the parsed spool size
    of the first spool whose id equals the filter, or [0] if there is none;
    it is never below zero; with the sentinel filter no remaining value is
    computed. *)
Theorem update_totals_remaining (jobs spools : list row) (filter_sid : string) :
  let t := update_totals jobs spools filter_sid in
  (filter_sid <> "(All)" ->
     exists rem : float,
       spool_remaining t = Some rem
       /\ rem = py_max (first_spool_size filter_sid spools - total_consumed t) 0
       /\ (rem <? 0)%float = false)
  /\ (filter_sid = "(All)" -> spool_remaining t = None).
Proof.
  cbn zeta. unfold update_totals.
  destruct (fold_left _ jobs _) as [[tp tl] tc]. cbn [spool_remaining total_consumed].
  split.
  - intros Hne. apply String.eqb_neq in Hne. rewrite Hne. cbn [negb].
    eexists. split; [reflexivity|]. rewrite spool_size_first.
    split; [reflexivity|apply py_max_zero_not_negative].
  - intros ->. reflexivity.
Qed.

Lemma update_totals_remaining_witness :
  spool_remaining (update_totals example_jobs example_spools "SP-20240101-0001")
    = Some 890%float
  /\ spool_remaining (update_totals example_jobs example_spools "(All)") = None.
Proof.
  destruct (update_totals_remaining example_jobs example_spools "SP-20240101-0001")
    as [Hrem _].
  destruct (update_totals_remaining example_jobs example_spools "(All)")
    as [_ Hall].
  split.
  - destruct Hrem as (rem & -> & -> & _); [discriminate|].
    vm_compute. reflexivity.
  - apply Hall. reflexivity.
Defined.

(** C10. The aggregator neither rejects nor clamps negative values: a
    string that parses as a number is used as it is and only an unparsable
    one becomes [0]; so there are jobs tables with a strictly negative
    [total_potential], [total_consumed] and [total_lost], for instance a
    single job whose potential is [-5]. *)
Theorem update_totals_negative_totals :
  (forall (s : string) (x : float),
      float_of_str s = Some x -> safe_float (Some s) = x)
  /\ (forall s : string, float_of_str s = None -> safe_float (Some s) = 0%float)
  /\ (forall spools,
        total_potential (update_totals [job_row "-5" "pending" "" ""] spools "(All)")
        = (-5)%float)
  /\ (exists jobs, forall spools,
        (total_potential (update_totals jobs spools "(All)") <? 0)%float = true
        /\ (total_consumed (update_totals jobs spools "(All)") <? 0)%float = true)
  /\ (exists jobs, forall spools,
        (total_lost (update_totals jobs spools "(All)") <? 0)%float = true).
Proof.
  split; [|split; [|split; [|split]]].
  - intros s x H. unfold safe_float. rewrite H. reflexivity.
  - intros s H. unfold safe_float. rewrite H. reflexivity.
  - intros spools. vm_compute. reflexivity.
  - exists [job_row "-5" "success" "" ""]. intros spools. vm_compute. split; reflexivity.
  - exists [job_row "20" "failed" "-3" ""]. intros spools. vm_compute. reflexivity.
Qed.

Lemma update_totals_negative_totals_witness :
  safe_float (Some "-5") = (-5)%float /\ safe_float (Some "five") = 0%float.
Proof.
  destruct update_totals_negative_totals as (Hnum & Hbad & _).
  split; [apply Hnum|apply Hbad]; vm_compute; reflexivity.
Defined.

(** ** The dialogs *)

Section Dialogs.

Lemma empty_true (s : string) : empty s = true <-> s = "".
Proof. apply String.eqb_eq. Qed.

Lemma empty_false (s : string) : empty s = false <-> s <> "".
Proof. apply String.eqb_neq. Qed.





Lemma SpoolDialog_validate_lookups (dlg : SpoolDialog) (data : row) :
  SpoolDialog_validate dlg = inr data ->
  data !! "Other Material"
    = Some (Some (if String.eqb (strip (material_var dlg)) "Other"
                  then strip (other_mat_var dlg) else ""))
  /\ data !! "Other Color"
    = Some (Some (if String.eqb (strip (color_var dlg)) "Other"
                  then strip (other_color_var dlg) else ""))
  /\ data !! "Material" = Some (Some (strip (material_var dlg)))
  /\ data !! "Color" = Some (Some (strip (color_var dlg))).
Proof.
  unfold SpoolDialog_validate.
  repeat match goal with
         | |- context [if ?b then inl _ else _] => destruct b; [discriminate|]
         end.
  intros [= <-]. repeat split.
Qed.

Lemma SpoolDialog_validate_data (dlg : SpoolDialog) (data : row) :
  SpoolDialog_validate dlg = inr data ->
  values_of SPOOL_COLS data
  = [Some (strip (id_var dlg)); Some (strip (material_var dlg));
     Some (if String.eqb (strip (material_var dlg)) "Other"
           then strip (other_mat_var dlg) else "");
     Some (strip (color_var dlg));
     Some (if String.eqb (strip (color_var dlg)) "Other"
           then strip (other_color_var dlg) else "");
     Some (strip (size_var dlg)); Some (strip (notes_var dlg));
     Some (strip (created_var dlg))].
Proof.
  unfold SpoolDialog_validate.
  repeat match goal with
         | |- context [if ?b then inl _ else _] => destruct b; [discriminate|]
         end.
  intros [= <-]. reflexivity.
Qed.

End Dialogs.



(** C6. Spool validation rejects a form whose material is [Other] while
    the other-material text is empty, and likewise for the colour. On
    acceptance the other-material text is stored as entered (trimmed) when
    the material is [Other] and as the empty string otherwise, and the
    same holds for the other-colour text: this is so in the record handed
    to [on_ok], in the row [_add_spool_row] appends to the spools table and
    in the row [_edit_spool_row] puts in place of the edited one. A form
    that passes the four checks is accepted and handed to [on_ok]. *)
Theorem SpoolDialog_ok_other_fields (dlg : SpoolDialog)
    (on_ok : option (row -> treeview -> treeview)) (tree : treeview) :
  let sid := strip (id_var dlg) in
  let size := strip (size_var dlg) in
  let mat := strip (material_var dlg) in
  let other_mat := strip (other_mat_var dlg) in
  let col := strip (color_var dlg) in
  let other := strip (other_color_var dlg) in
  let stored :=
    [Some sid; Some mat;
     Some (if String.eqb mat "Other" then other_mat else "");
     Some col;
     Some (if String.eqb col "Other" then other else "");
     Some size; Some (strip (notes_var dlg)); Some (strip (created_var dlg))] in
  (mat = "Other" -> other_mat = "" ->
     exists title message,
       SpoolDialog_ok dlg on_ok tree = (Rejected title message, tree))
  /\ (col = "Other" -> other = "" ->
     exists title message,
       SpoolDialog_ok dlg on_ok tree = (Rejected title message, tree))
  /\ (forall data tree',
        SpoolDialog_ok dlg on_ok tree = (Accepted data, tree') ->
        (mat = "Other" -> data !! "Other Material" = Some (Some other_mat))
        /\ (mat <> "Other" -> data !! "Other Material" = Some (Some ""))
        /\ (col = "Other" -> data !! "Other Color" = Some (Some other))
        /\ (col <> "Other" -> data !! "Other Color" = Some (Some ""))
        /\ data !! "Material" = Some (Some mat)
        /\ data !! "Color" = Some (Some col)
        /\ tree' = match on_ok with Some f => f data tree | None => tree end
        /\ App_add_spool_row data tree = tree ++ [stored]
        /\ (forall iid, App_edit_spool_row iid data tree = <[iid := stored]> tree))
  /\ (sid <> "" -> size <> "" -> is_float size = true ->
      (mat = "Other" -> other_mat <> "") -> (col = "Other" -> other <> "") ->
      exists data,
        SpoolDialog_ok dlg on_ok tree
        = (Accepted data, match on_ok with Some f => f data tree | None => tree end)
        /\ App_add_spool_row data tree = tree ++ [stored]
        /\ (forall iid, App_edit_spool_row iid data tree = <[iid := stored]> tree)).
Proof.
  intros sid size mat other_mat col other stored.
  split; [|split; [|split]].
  - intros Hmat Hother.
    unfold SpoolDialog_ok, SpoolDialog_validate.
    fold sid size mat other_mat col other. rewrite Hmat, Hother.
    destruct (empty sid); [eexists _, _; reflexivity|].
    destruct (empty size || negb (is_float size)); eexists _, _; reflexivity.
  - intros Hcol Hother.
    unfold SpoolDialog_ok, SpoolDialog_validate.
    fold sid size mat other_mat col other. rewrite Hcol, Hother.
    destruct (empty sid); [eexists _, _; reflexivity|].
    destruct (empty size || negb (is_float size)); [eexists _, _; reflexivity|].
    destruct (String.eqb mat "Other" && empty other_mat); eexists _, _; reflexivity.
  - intros data tree' Hok. unfold SpoolDialog_ok in Hok.
    destruct (SpoolDialog_validate dlg) as [[t m]|data0] eqn:Hval; [discriminate|].
    cbn [run_ok] in Hok. injection Hok as -> <-.
    destruct (SpoolDialog_validate_lookups dlg data Hval) as (Hom & Hoc & Hm & Hc).
    pose proof (SpoolDialog_validate_data dlg data Hval) as Hvals.
    fold mat other_mat in Hom. fold col other in Hoc. fold mat in Hm. fold col in Hc.
    fold sid size mat other_mat col other in Hvals. fold stored in Hvals.
    unfold App_add_spool_row, App_edit_spool_row. rewrite Hvals.
    repeat split; try assumption.
    + intros Hmat. rewrite Hom, Hmat. reflexivity.
    + intros Hmat. apply String.eqb_neq in Hmat. rewrite Hom, Hmat. reflexivity.
    + intros Hcol. rewrite Hoc, Hcol. reflexivity.
    + intros Hcol. apply String.eqb_neq in Hcol. rewrite Hoc, Hcol. reflexivity.
  - intros Hsid Hsize Hfloat Hmat Hcol.
    assert (exists data, SpoolDialog_validate dlg = inr data) as [data Hval].
    { unfold SpoolDialog_validate.
      fold sid size mat other_mat col other.
      apply empty_false in Hsid, Hsize. rewrite Hsid, Hsize, Hfloat. cbn [negb orb].
      assert (String.eqb mat "Other" && empty other_mat = false) as ->.
      { destruct (String.eqb_spec mat "Other") as [Heq|]; [|reflexivity].
        apply empty_false, Hmat, Heq. }
      assert (String.eqb col "Other" && empty other = false) as ->.
      { destruct (String.eqb_spec col "Other") as [Heq|]; [|reflexivity].
        apply empty_false, Hcol, Heq. }
      eexists. reflexivity. }
    pose proof (SpoolDialog_validate_data dlg data Hval) as Hvals.
    fold sid size mat other_mat col other in Hvals. fold stored in Hvals.
    exists data. unfold SpoolDialog_ok. rewrite Hval. cbn [run_ok].
    unfold App_add_spool_row, App_edit_spool_row. rewrite Hvals.
    repeat split.
Qed.

Lemma SpoolDialog_ok_other_fields_witness :
  (exists title message,
      SpoolDialog_ok spool_other_blank (Some App_add_spool_row) []
      = (Rejected title message, []))
  /\ snd (SpoolDialog_ok spool_other_named (Some App_add_spool_row) [])
     = [[Some "SP-20240101-0001"; Some "Other"; Some "PVB"; Some "Black"; Some "";
         Some "1000"; Some ""; Some "2024-01-01"]]
  /\ snd (SpoolDialog_ok spool_pla_leftover (Some App_add_spool_row) [])
     = [[Some "SP-20240101-0001"; Some "PLA"; Some ""; Some "Black"; Some "";
         Some "1000"; Some ""; Some "2024-01-01"]]
  /\ (forall data tree',
        SpoolDialog_ok spool_pla_leftover (Some App_add_spool_row) []
        = (Accepted data, tree') ->
        data !! "Other Material" = Some (Some "")).
Proof.
  destruct (SpoolDialog_ok_other_fields spool_other_blank (Some App_add_spool_row) [])
    as (Hreject & _).
  destruct (SpoolDialog_ok_other_fields spool_other_named (Some App_add_spool_row) [])
    as (_ & _ & _ & Hnamed).
  destruct (SpoolDialog_ok_other_fields spool_pla_leftover (Some App_add_spool_row) [])
    as (_ & _ & Hstored & Hleftover).
  split; [|split; [|split]].
  - apply Hreject; vm_compute; reflexivity.
  - destruct Hnamed as (data & -> & Hrow & _).
    + vm_compute. discriminate.
    + vm_compute. discriminate.
    + vm_compute. reflexivity.
    + intros _. vm_compute. discriminate.
    + vm_compute. discriminate.
    + cbn [snd]. rewrite Hrow. vm_compute. reflexivity.
  - destruct Hleftover as (data & -> & Hrow & _).
    + vm_compute. discriminate.
    + vm_compute. discriminate.
    + vm_compute. reflexivity.
    + vm_compute. discriminate.
    + vm_compute. discriminate.
    + cbn [snd]. rewrite Hrow. vm_compute. reflexivity.
  - intros data tree' Hok.
    destruct (Hstored data tree' Hok) as (_ & Hclear & _).
    apply Hclear. vm_compute. discriminate.
Defined.

(** ** The [csv] reader on what the writer wrote *)

Section CsvRoundTrip.

Import Reader Writer.

Lemma is_newline_false (c : ascii) :
  is_newline c = false -> Ascii.eqb c lf = false /\ Ascii.eqb c cr = false.
Proof. unfold is_newline. intros H. apply orb_false_elim in H. exact H. Qed.

Lemma special_false (c : ascii) :
  special c = false ->
  Ascii.eqb c "," = false /\ Ascii.eqb c quote_char = false /\ is_newline c = false.
Proof.
  unfold special. intros H.
  apply orb_false_elim in H as [H Hnl]. apply orb_false_elim in H as [Hcomma Hq].
  repeat split; assumption.
Qed.

Lemma readlines_plain (c : ascii) (t : string) :
  is_newline c = false ->
  readlines (String c t)
  = match readlines t with
    | [] => [String c EmptyString]
    | l :: ls => String c l :: ls
    end.
Proof.
  intros H. apply is_newline_false in H as [Hlf Hcr]. unfold lf, cr in *.
  cbn [readlines]. rewrite Hlf, Hcr. reflexivity.
Qed.

Lemma readlines_nonempty (t : string) : t <> EmptyString -> readlines t <> [].
Proof.
  destruct t as [|c t]; [congruence|]. intros _. cbn [readlines].
  destruct (Ascii.eqb c "010"); [discriminate|].
  destruct (Ascii.eqb c "013").
  - destruct t as [|d t]; [discriminate|].
    destruct d as [[] [] [] [] [] [] [] []]; discriminate.
  - destruct (readlines t); discriminate.
Qed.

Lemma readlines_crlf (t : string) :
  readlines (lineterminator +:+ t) = lineterminator :: readlines t.
Proof. reflexivity. Qed.

Lemma app_nonempty_r (s t : string) : t <> EmptyString -> s +:+ t <> EmptyString.
Proof. destruct s; [trivial|discriminate]. Qed.

(** A character that is not a line ending, with more text after it, is fed
    to the parser and the rest goes on from there. *)
Lemma records_plain (st st' : ReaderObj) (c : ascii) (t : string) :
  is_newline c = false -> t <> EmptyString ->
  parse_process_char st (Char c) = Some st' ->
  records st (readlines (String c t)) = records st' (readlines t).
Proof.
  intros Hc Ht Hstep. rewrite (readlines_plain c t Hc).
  pose proof (readlines_nonempty t Ht) as Hne.
  destruct (readlines t) as [|l ls]; [congruence|].
  cbn [records feed]. rewrite Hstep. reflexivity.
Qed.

(** Inside quotes every character but the quote is added to the field,
    line endings included, whatever follows. *)
Lemma records_in_quotes (fs : list string) (buf : string) (c : ascii) (t : string) :
  Ascii.eqb c quote_char = false ->
  records {| state := IN_QUOTED_FIELD; fields := fs; field := buf |}
          (readlines (String c t))
  = records {| state := IN_QUOTED_FIELD; fields := fs;
               field := buf +:+ String c EmptyString |} (readlines t).
Proof.
  intros Hq. unfold quote_char in Hq.
  assert (forall b, parse_process_char
            {| state := IN_QUOTED_FIELD; fields := fs; field := b |} (Char c)
          = Some {| state := IN_QUOTED_FIELD; fields := fs;
                    field := b +:+ String c EmptyString |}) as Hstep.
  { intros b. unfold parse_process_char. cbn [state]. rewrite Hq. reflexivity. }
  destruct (Ascii.eqb_spec c lf) as [->|Hlf].
  { cbn [readlines]. rewrite Ascii.eqb_refl. reflexivity. }
  destruct (Ascii.eqb_spec c cr) as [->|Hcr].
  { destruct t as [|d t]; [reflexivity|].
    destruct (Ascii.eqb_spec d lf) as [->|Hd].
    - reflexivity.
    - assert (readlines (String cr (String d t))
              = String cr EmptyString :: readlines (String d t)) as ->.
      { cbn [readlines]. unfold cr. cbn.
        destruct d as [[] [] [] [] [] [] [] []]; try reflexivity.
        exfalso. apply Hd. reflexivity. }
      reflexivity. }
  assert (is_newline c = false) as Hnl.
  { unfold is_newline. apply Ascii.eqb_neq in Hlf, Hcr. unfold lf, cr in *.
    rewrite Hlf, Hcr. reflexivity. }
  rewrite (readlines_plain c t Hnl).
  destruct (readlines t) as [|l ls].
  - cbn [records feed]. rewrite Hstep. reflexivity.
  - cbn [records feed]. rewrite Hstep. reflexivity.
Qed.

(** A doubled quote inside quotes adds one quote to the field. *)
Lemma records_doubled_quote (fs : list string) (buf : string) (t : string) :
  records {| state := IN_QUOTED_FIELD; fields := fs; field := buf |}
          (readlines (String quote_char (String quote_char t)))
  = records {| state := IN_QUOTED_FIELD; fields := fs;
               field := buf +:+ String quote_char EmptyString |} (readlines t).
Proof.
  rewrite !(readlines_plain quote_char) by reflexivity.
  destruct (readlines t) as [|l ls]; reflexivity.
Qed.

(** The body of a quoted field, with its quotes doubled, is read back as
    the field. *)
Lemma records_quoted_body (f : string) (fs : list string) (buf t : string) :
  records {| state := IN_QUOTED_FIELD; fields := fs; field := buf |}
          (readlines (doubled f +:+ t))
  = records {| state := IN_QUOTED_FIELD; fields := fs; field := buf +:+ f |}
            (readlines t).
Proof.
  revert buf. induction f as [|c f IH]; intros buf.
  - rewrite str_app_nil_l, str_app_nil_r. reflexivity.
  - cbn [doubled]. destruct (Ascii.eqb_spec c "034") as [->|Hc].
    + rewrite !str_app_cons. rewrite (records_doubled_quote fs buf).
      rewrite IH, str_app_assoc. reflexivity.
    + rewrite str_app_cons, records_in_quotes by (apply Ascii.eqb_neq; exact Hc).
      rewrite IH, str_app_assoc. reflexivity.
Qed.

(** The characters of an unquoted field are added to the field. *)
Lemma records_plain_body (f : string) (fs : list string) (buf t : string) :
  needs_quotes f = false -> t <> EmptyString ->
  records {| state := IN_FIELD; fields := fs; field := buf |} (readlines (f +:+ t))
  = records {| state := IN_FIELD; fields := fs; field := buf +:+ f |} (readlines t).
Proof.
  revert buf. induction f as [|c f IH]; intros buf Hf Ht.
  - rewrite str_app_nil_l, str_app_nil_r. reflexivity.
  - cbn [needs_quotes] in Hf. apply orb_false_elim in Hf as [Hc Hf].
    apply special_false in Hc as (Hcomma & Hq & Hnl). unfold quote_char in Hq.
    rewrite str_app_cons.
    rewrite (records_plain _ {| state := IN_FIELD; fields := fs;
                               field := buf +:+ String c EmptyString |} c);
      [|exact Hnl|apply app_nonempty_r; exact Ht|].
    + rewrite IH by assumption. rewrite str_app_assoc. reflexivity.
    + unfold parse_process_char. cbn [state]. rewrite Hnl, Hcomma. reflexivity.
Qed.


Lemma crlf_nonempty (t : string) : lineterminator +:+ t <> EmptyString.
Proof. discriminate. Qed.

Lemma comma_nonempty (t : string) : String "," t <> EmptyString.
Proof. discriminate. Qed.

Lemma records_start_record (fs : list string) (buf : string) (c : ascii) (t : string) :
  is_newline c = false ->
  records {| state := START_RECORD; fields := fs; field := buf |}
          (readlines (String c t))
  = records {| state := START_FIELD; fields := fs; field := buf |}
            (readlines (String c t)).
Proof.
  intros Hc. rewrite (readlines_plain c t Hc).
  assert (parse_process_char {| state := START_RECORD; fields := fs; field := buf |}
            (Char c)
          = parse_process_char {| state := START_FIELD; fields := fs; field := buf |}
              (Char c)) as Hstep.
  { unfold parse_process_char. cbn [state]. rewrite Hc. reflexivity. }
  destruct (readlines t) as [|l ls]; cbn [records feed]; rewrite Hstep; reflexivity.
Qed.

Lemma read_field (f : string) (fs : list string) (t : string) :
  t <> EmptyString ->
  records {| state := START_FIELD; fields := fs; field := EmptyString |}
          (readlines (join_append f +:+ t))
  = records {| state := after_field f; fields := fs; field := f |} (readlines t).
Proof.
  intros Ht. unfold join_append, after_field.
  destruct (needs_quotes f) eqn:Hq.
  - rewrite str_app_cons, str_app_assoc.
    rewrite (records_plain _ {| state := IN_QUOTED_FIELD; fields := fs;
                               field := EmptyString |});
      [|reflexivity|apply app_nonempty_r; discriminate|reflexivity].
    rewrite records_quoted_body, str_app_cons, str_app_nil_l.
    apply records_plain; [reflexivity|exact Ht|reflexivity].
  - destruct f as [|c f]; [reflexivity|].
    cbn [needs_quotes] in Hq. apply orb_false_elim in Hq as [Hc Hf].
    apply special_false in Hc as (Hcomma & Hquote & Hnl). unfold quote_char in Hquote.
    rewrite str_app_cons.
    rewrite (records_plain _ {| state := IN_FIELD; fields := fs;
                               field := String c EmptyString |});
      [|exact Hnl|apply app_nonempty_r; exact Ht|].
    + rewrite records_plain_body by assumption. reflexivity.
    + unfold parse_process_char, start_field. cbn [state].
      rewrite Hnl, Hquote, Hcomma. reflexivity.
Qed.

Lemma end_field_comma (f : string) (fs : list string) (t : string) :
  t <> EmptyString ->
  records {| state := after_field f; fields := fs; field := f |}
          (readlines (String "," t))
  = records {| state := START_FIELD; fields := fs ++ [f]; field := EmptyString |}
            (readlines t).
Proof.
  intros Ht. apply records_plain; [reflexivity|exact Ht|].
  unfold after_field. destruct (needs_quotes f); [reflexivity|].
  destruct f; reflexivity.
Qed.

Lemma end_field_crlf (f : string) (fs : list string) (t : string) :
  records {| state := after_field f; fields := fs; field := f |}
          (readlines (lineterminator +:+ t))
  = option_map (cons (fs ++ [f])) (records parse_reset (readlines t)).
Proof.
  rewrite readlines_crlf. unfold after_field.
  destruct (needs_quotes f); [reflexivity|].
  destruct f; reflexivity.
Qed.

Lemma read_joined (fs acc : list string) (t : string) :
  fs <> [] ->
  records {| state := START_FIELD; fields := acc; field := EmptyString |}
          (readlines (join fs +:+ lineterminator +:+ t))
  = option_map (cons (acc ++ fs)) (records parse_reset (readlines t)).
Proof.
  revert acc. induction fs as [|f rest IH]; intros acc Hne; [congruence|].
  destruct rest as [|g rest].
  - cbn [join]. rewrite read_field by apply crlf_nonempty.
    apply end_field_crlf.
  - change (join (f :: g :: rest)) with (join_append f +:+ String "," (join (g :: rest))).
    rewrite str_app_assoc, str_app_cons, read_field by apply comma_nonempty.
    rewrite end_field_comma by apply app_nonempty_r, crlf_nonempty.
    rewrite IH by discriminate. rewrite <- app_assoc. reflexivity.
Qed.

Lemma join_append_first (f : string) (c : ascii) (s : string) :
  join_append f = String c s -> is_newline c = false.
Proof.
  unfold join_append. destruct (needs_quotes f) eqn:Hq.
  - intros [= <- _]. reflexivity.
  - intros ->. cbn [needs_quotes] in Hq. apply orb_false_elim in Hq as [Hc _].
    apply special_false in Hc. apply Hc.
Qed.

Lemma join_first (fs : list string) (c : ascii) (s : string) :
  join fs = String c s -> is_newline c = false.
Proof.
  destruct fs as [|f [|g rest]]; [discriminate| |].
  - apply join_append_first.
  - change (join (f :: g :: rest)) with (join_append f +:+ String "," (join (g :: rest))).
    destruct (join_append f) as [|d u] eqn:Hf.
    + intros [= <- _]. reflexivity.
    + rewrite str_app_cons. intros [= <- _]. apply (join_append_first f d u Hf).
Qed.

Lemma join_empty (f : string) (rest : list string) :
  join (f :: rest) = EmptyString -> f = EmptyString /\ rest = [].
Proof.
  destruct rest as [|g rest].
  - cbn [join]. unfold join_append. destruct (needs_quotes f); [discriminate|].
    intros ->. split; reflexivity.
  - change (join (f :: g :: rest)) with (join_append f +:+ String "," (join (g :: rest))).
    destruct (join_append f); discriminate.
Qed.

(** A written record followed by more text reads back as that record,
    and the reader goes on with the rest. *)
Lemma read_writerow (fs : list string) (t : string) :
  fs <> [] ->
  records parse_reset (readlines (writerow fs +:+ t))
  = option_map (cons fs) (records parse_reset (readlines t)).
Proof.
  intros Hne. destruct fs as [|f rest]; [congruence|].
  unfold writerow. destruct (join (f :: rest)) as [|c s] eqn:Hj.
  - apply join_empty in Hj as [-> ->].
    rewrite !str_app_cons, !(readlines_plain "034") by reflexivity.
    change (String "013" (String "010" EmptyString) +:+ t)
      with (lineterminator +:+ t).
    rewrite readlines_crlf. reflexivity.
  - pose proof (join_first _ _ _ Hj) as Hc.
    rewrite str_app_assoc, str_app_cons. unfold parse_reset.
    rewrite records_start_record by exact Hc.
    rewrite <- str_app_cons, <- Hj.
    apply (read_joined (f :: rest) [] t). discriminate.
Qed.

Lemma reader_written (rows : list (list string)) :
  Forall (fun r => r <> []) rows ->
  reader (cat (map writerow rows)) = Some rows.
Proof.
  unfold reader. induction rows as [|r rows IH]; intros Hall; [reflexivity|].
  inversion Hall as [|? ? Hr Hrows]; subst.
  cbn [map cat fold_right]. fold (cat (map writerow rows)).
  change (String.append (writerow r) (cat (map writerow rows)))
    with (writerow r +:+ cat (map writerow rows)).
  rewrite read_writerow by exact Hr. rewrite IH by exact Hrows. reflexivity.
Qed.


(** *** The reader never fails on the lines of a file *)

Lemma readlines_ok (s : string) : forallb line_ok (readlines s) = true.
Proof.
  assert (forallb line_ok (readlines s) = true
          /\ forall d s', s = String d s' -> forallb line_ok (readlines s') = true)
    as [H _]; [|exact H].
  induction s as [|c s [IH1 IH2]]; [split; [reflexivity|discriminate]|].
  split; [|intros d s' [= _ <-]; exact IH1].
  cbn [readlines].
  destruct (Ascii.eqb c "010") eqn:Hlf.
  { apply Ascii.eqb_eq in Hlf as ->. cbn [forallb]. rewrite IH1. reflexivity. }
  destruct (Ascii.eqb c "013") eqn:Hcr.
  { apply Ascii.eqb_eq in Hcr as ->.
    destruct s as [|d s]; [reflexivity|].
    destruct (Ascii.eqb_spec d "010") as [->|Hd].
    - cbn [forallb]. rewrite (IH2 _ _ eq_refl). reflexivity.
    - assert (forallb line_ok (String "013" EmptyString :: readlines (String d s)) = true)
        as Hgoal by (cbn [forallb]; rewrite IH1; reflexivity).
      destruct d as [[] [] [] [] [] [] [] []]; exact Hgoal. }
  assert (is_newline c = false) as Hnl by (unfold is_newline; rewrite Hlf, Hcr; reflexivity).
  destruct (readlines s) as [|l ls].
  - cbn [forallb line_ok]. rewrite Hnl. reflexivity.
  - cbn [forallb line_ok] in *. rewrite Hnl. exact IH1.
Qed.

Lemma is_newline_true (c : ascii) : is_newline c = true -> c = lf \/ c = cr.
Proof.
  unfold is_newline. intros H. apply orb_prop in H as [H|H];
    apply Ascii.eqb_eq in H; [left|right]; exact H.
Qed.

Lemma step_plain_ok (st : ReaderObj) (c : ascii) :
  is_newline c = false -> state st <> EAT_CRNL ->
  exists st', parse_process_char st (Char c) = Some st' /\ state st' <> EAT_CRNL.
Proof.
  intros Hc Hst. destruct st as [s fs buf]. cbn [state] in Hst.
  unfold parse_process_char, start_field. cbn [state].
  destruct s; try congruence; rewrite ?Hc;
    destruct (Ascii.eqb c "034"); destruct (Ascii.eqb c ",");
    eexists; (split; [reflexivity|cbn; discriminate]).
Qed.

Lemma feed_ok (l : string) (st : ReaderObj) :
  line_ok l = true -> state st <> EAT_CRNL ->
  exists st', feed st l = Some st' /\ state st' <> EAT_CRNL.
Proof.
  revert st. induction l as [|c l IH]; intros st Hl Hst.
  - destruct st as [s fs buf]. cbn [state] in Hst.
    destruct s; try congruence; eexists; (split; [reflexivity|cbn; discriminate]).
  - cbn [line_ok] in Hl. destruct (is_newline c) eqn:Hc.
    + destruct st as [s fs buf]. cbn [state] in Hst.
      apply orb_prop in Hl as [Hl|Hl].
      * apply empty_true in Hl as ->.
        apply is_newline_true in Hc as [->| ->];
          destruct s; try congruence;
          eexists; (split; [reflexivity|cbn; discriminate]).
      * apply andb_prop in Hl as [Hcr Hl].
        apply Ascii.eqb_eq in Hcr as ->. apply String.eqb_eq in Hl as ->.
        destruct s; try congruence;
          eexists; (split; [reflexivity|cbn; discriminate]).
    + destruct (step_plain_ok st c Hc Hst) as (st1 & Hstep & Hst1).
      destruct (IH st1 Hl Hst1) as (st' & Hfeed & Hst').
      exists st'. cbn [feed]. rewrite Hstep. split; assumption.
Qed.

Lemma records_ok (lines : list string) (st : ReaderObj) :
  forallb line_ok lines = true -> state st <> EAT_CRNL ->
  exists rows, records st lines = Some rows.
Proof.
  revert st. induction lines as [|l lines IH]; intros st Hall Hst.
  - cbn [records]. destruct (_ || _); eexists; reflexivity.
  - cbn [forallb] in Hall. apply andb_prop in Hall as [Hl Hall].
    destruct (feed_ok l st Hl Hst) as (st' & Hfeed & Hst').
    cbn [records]. rewrite Hfeed.
    destruct (is_start_record (state st')).
    + destruct (IH parse_reset Hall) as [rows ->]; [discriminate|].
      eexists. reflexivity.
    + apply IH; assumption.
Qed.

Lemma reader_total (text : string) : exists rows, reader text = Some rows.
Proof. apply records_ok; [apply readlines_ok|discriminate]. Qed.

End CsvRoundTrip.

(** ** Dictionaries, [DictReader] and [DictWriter] *)

Section Dicts.

Lemma str_in_In (s : string) (l : list string) : str_in s l = true <-> In s l.
Proof.
  unfold str_in. rewrite existsb_exists. split.
  - intros (x & Hin & Heq). apply String.eqb_eq in Heq as <-. exact Hin.
  - intros Hin. exists s. split; [exact Hin|apply String.eqb_refl].
Qed.

Lemma str_in_cons (k c : string) (cols : list string) :
  str_in k (c :: cols) = String.eqb k c || str_in k cols.
Proof. reflexivity. Qed.

Lemma fold_insert_lookup (cols : list string) (f : string -> pyval) (d : row) (k : string) :
  fold_left (fun d c => <[c := f c]> d) cols d !! k
  = if str_in k cols then Some (f k) else d !! k.
Proof.
  revert d. induction cols as [|c cols IH]; intros d; [reflexivity|].
  cbn [fold_left]. rewrite IH, str_in_cons.
  destruct (str_in k cols); [rewrite orb_true_r; reflexivity|].
  rewrite orb_false_r. destruct (String.eqb_spec k c) as [->|Hne].
  - apply lookup_insert_eq.
  - apply lookup_insert_ne. congruence.
Qed.

Lemma dict_comp_lookup (cols : list string) (f : string -> pyval) (k : string) :
  dict_comp cols f !! k = if str_in k cols then Some (f k) else None.
Proof. unfold dict_comp. rewrite fold_insert_lookup, lookup_empty. reflexivity. Qed.

Lemma dict_get_comp (cols : list string) (f : string -> pyval) (k : string) (v : pyval) :
  In k cols -> dict_get (dict_comp cols f) k v = f k.
Proof.
  intros Hin. apply str_in_In in Hin. unfold dict_get.
  rewrite dict_comp_lookup, Hin. reflexivity.
Qed.

Lemma dict_comp_ext (cols : list string) (f g : string -> pyval) :
  (forall k, In k cols -> f k = g k) -> dict_comp cols f = dict_comp cols g.
Proof.
  intros Hfg. apply map_eq. intros k. rewrite !dict_comp_lookup.
  destruct (str_in k cols) eqn:Hin; [|reflexivity].
  apply str_in_In in Hin. rewrite (Hfg k Hin). reflexivity.
Qed.

(** A record with a value for every field name is the dictionary of its
    values. *)
Lemma dict_row_full (h : list string) (g : string -> string) :
  dict_row h (map g h) = dict_comp h (fun c => Some (g c)).
Proof.
  unfold dict_row, dict_comp.
  rewrite length_map, drop_all. cbn [fold_left].
  generalize (∅ : row). induction h as [|c h IH]; intros d; [reflexivity|].
  cbn [map zip zip_with fold_left fst snd]. apply IH.
Qed.

(** A row of the reader has no key outside the field names. *)
Lemma dict_row_lookup_None (h r : list string) (k : string) :
  ~ In k h -> dict_row h r !! k = None.
Proof.
  intros Hk. unfold dict_row.
  assert (forall (l : list string) (d : row),
             ~ In k l -> d !! k = None ->
             fold_left (fun d k => <[k := None]> d) l d !! k = None) as Hrest.
  { induction l as [|c l IH]; intros d Hl Hd; [exact Hd|].
    cbn [fold_left]. apply IH; [intros ?; apply Hl; right; assumption|].
    rewrite lookup_insert_ne; [exact Hd|]. intros ->. apply Hl. left. reflexivity. }
  apply Hrest.
  - intros Hin. apply Hk. apply list_elem_of_In.
    apply list_elem_of_In in Hin. eapply subseteq_drop. exact Hin.
  - generalize (∅ : row) (lookup_empty (M := gmap string) (A := pyval) k).
    revert r. induction h as [|c h IH]; intros r d Hd; [destruct r; exact Hd|].
    destruct r as [|x r]; [exact Hd|].
    cbn [zip zip_with fold_left fst snd]. apply IH.
    + intros Hin. apply Hk. right. exact Hin.
    + rewrite lookup_insert_ne; [exact Hd|]. intros ->. apply Hk. left. reflexivity.
Qed.

Import Reader Writer.

Lemma DictReader_total (text : string) :
  exists fieldnames rows, DictReader text = Some (fieldnames, rows).
Proof.
  unfold DictReader. destruct (reader_total text) as [recs ->].
  destruct recs; eexists _, _; reflexivity.
Qed.

Lemma filter_nonempty_records (h : list string) (vs : list (string -> string)) :
  h <> [] ->
  List.filter (fun r : list string => negb (is_nil r)) (map (fun g => map g h) vs)
  = map (fun g => map g h) vs.
Proof.
  intros Hh. induction vs as [|g vs IH]; [reflexivity|].
  cbn [map List.filter]. destruct h; [congruence|]. cbn [map is_nil negb].
  f_equal. exact IH.
Qed.

(** What [DictWriter] wrote under a non-empty header, [DictReader] reads
    back: the header as field names, and for every dictionary written a
    row holding the text of each of its cells. *)
Lemma DictReader_written (h : list string) (ds : list row) :
  h <> [] ->
  DictReader (DictWriter_writeheader h +:+ cat (map (DictWriter_writerow h) ds))
  = Some (Some h,
          map (fun d => dict_comp h (fun k => Some (cell_text (dict_get d k (Some ""))))) ds).
Proof.
  intros Hh. unfold DictReader, reader, DictWriter_writeheader.
  rewrite read_writerow by exact Hh.
  assert (map (DictWriter_writerow h) ds
          = map writerow (map (fun d => map (fun k => cell_text (dict_get d k (Some ""))) h) ds))
    as -> by (rewrite map_map; reflexivity).
  pose proof (reader_written
                (map (fun d => map (fun k => cell_text (dict_get d k (Some ""))) h) ds))
    as Hread.
  unfold reader in Hread. rewrite Hread.
  - cbn [option_map]. f_equal. f_equal.
    rewrite <- (map_map (fun d k => cell_text (dict_get d k (Some ""))) (fun g => map g h)).
    rewrite filter_nonempty_records by exact Hh.
    rewrite !map_map. apply map_ext. intros d. apply dict_row_full.
  - apply List.Forall_forall. intros r Hr. apply in_map_iff in Hr as (d & <- & _).
    destruct h; [congruence|discriminate].
Qed.

End Dicts.

(** ** The start-up migration *)

Section Migration.

(** The jobs file the block writes reads back as the migrated rows. *)
Lemma jobs_rewritten (rows : list row) :
  DictReader
    (DictWriter_writeheader JOB_COLS
     +:+ cat (map (fun r =>
           let r := <["Spool ID" := Some ""]> r in
           DictWriter_writerow JOB_COLS
             (dict_comp JOB_COLS (fun c => dict_get r c (Some "")))) rows))
  = Some (Some JOB_COLS, migrated_rows JOB_COLS "Spool ID" rows).
Proof.
  cbn zeta.
  rewrite <- (map_map (fun r => dict_comp JOB_COLS (fun c =>
                dict_get (<["Spool ID" := Some ""]> r) c (Some "")))
                (DictWriter_writerow JOB_COLS)).
  rewrite DictReader_written by discriminate.
  f_equal. f_equal. unfold migrated_rows. rewrite map_map.
  apply map_ext. intros r. apply dict_comp_ext. intros k Hk.
  rewrite dict_get_comp by exact Hk. f_equal. unfold dict_get.
  destruct (String.eqb_spec k "Spool ID") as [->|Hne].
  - rewrite lookup_insert_eq. reflexivity.
  - rewrite lookup_insert_ne by congruence. reflexivity.
Qed.

(** The same for the spools file, for rows without an [Other Material]
    key, as the rows of a file whose header lacks that column are. *)
Lemma spools_rewritten (rows : list row) :
  Forall (fun r : row => r !! "Other Material" = None) rows ->
  DictReader
    (DictWriter_writeheader SPOOL_COLS
     +:+ cat (map (fun r : row =>
           let r := r ∪ dict_comp SPOOL_COLS (fun _ => Some "") in
           let r := if falsy (dict_get r "Other Material" None)
                       && negb (val_eqb (dict_get r "Material" None) "Other")
                    then <["Other Material" := Some ""]> r else r in
           DictWriter_writerow SPOOL_COLS
             (dict_comp SPOOL_COLS (fun c => dict_get r c (Some "")))) rows))
  = Some (Some SPOOL_COLS, migrated_rows SPOOL_COLS "Other Material" rows).
Proof.
  intros Hrows. cbn zeta.
  rewrite <- (map_map (fun r : row => dict_comp SPOOL_COLS (fun c =>
                dict_get (if falsy (dict_get (r ∪ dict_comp SPOOL_COLS (fun _ => Some ""))
                                      "Other Material" None)
                             && negb (val_eqb (dict_get (r ∪ dict_comp SPOOL_COLS
                                                           (fun _ => Some ""))
                                                 "Material" None) "Other")
                          then <["Other Material" := Some ""]>
                                 (r ∪ dict_comp SPOOL_COLS (fun _ => Some ""))
                          else r ∪ dict_comp SPOOL_COLS (fun _ => Some "")) c (Some "")))
                (DictWriter_writerow SPOOL_COLS)).
  rewrite DictReader_written by discriminate.
  f_equal. f_equal. unfold migrated_rows. rewrite map_map.
  apply map_ext_in. intros r Hr.
  rewrite List.Forall_forall in Hrows. specialize (Hrows r Hr).
  apply dict_comp_ext. intros k Hk.
  rewrite dict_get_comp by exact Hk. f_equal.
  assert (forall c, (r ∪ dict_comp SPOOL_COLS (fun _ => Some "")) !! c
                    = match r !! c with
                      | Some v => Some v
                      | None => dict_comp SPOOL_COLS (fun _ => Some "") !! c
                      end) as Hunion.
  { intros c. rewrite lookup_union. destruct (r !! c), (dict_comp _ _ !! c); reflexivity. }
  assert (dict_comp SPOOL_COLS (fun _ => Some "") !! k = Some (Some "")) as Hdef.
  { rewrite dict_comp_lookup. apply str_in_In in Hk. rewrite Hk. reflexivity. }
  destruct (String.eqb_spec k "Other Material") as [->|Hne].
  - destruct (_ && _); unfold dict_get.
    + rewrite lookup_insert_eq. reflexivity.
    + rewrite Hunion, Hrows, Hdef. reflexivity.
  - destruct (_ && _); unfold dict_get.
    + rewrite lookup_insert_ne by congruence. rewrite Hunion, Hdef.
      destruct (r !! k); reflexivity.
    + rewrite Hunion, Hdef. destruct (r !! k); reflexivity.
Qed.


Lemma DictReader_rows_keys (text : string) (fieldnames : option (list string))
    (rows : list row) (col : string) :
  DictReader text = Some (fieldnames, rows) ->
  has_column col fieldnames = false ->
  Forall (fun r : row => r !! col = None) rows.
Proof.
  unfold DictReader. destruct (Reader.reader text) as [[|fn recs]|]; [| |discriminate].
  - intros [= <- <-] _. constructor.
  - intros [= <- <-] Hcol. cbn [has_column] in Hcol.
    apply List.Forall_forall. intros r Hr.
    apply in_map_iff in Hr as (rec & <- & _).
    apply dict_row_lookup_None. intros Hin.
    apply str_in_In in Hin. congruence.
Qed.

Lemma DictReader_jobs_header :
  DictReader (DictWriter_writeheader JOB_COLS) = Some (Some JOB_COLS, []).
Proof. vm_compute. reflexivity. Qed.

Lemma DictReader_spools_header :
  DictReader (DictWriter_writeheader SPOOL_COLS) = Some (Some SPOOL_COLS, []).
Proof. vm_compute. reflexivity. Qed.

Lemma jobs_migration_ok (file : option string) :
  migration_ok jobs_migration JOB_COLS "Spool ID" file.
Proof.
  unfold migration_ok. destruct file as [text|].
  - destruct (DictReader_total text) as (fn & rows & Hread).
    unfold jobs_migration at 1. rewrite Hread.
    destruct (has_column "Spool ID" fn) eqn:Hcol; cbn [negb].
    + exists NoWrite. split; [reflexivity|]. split; [|split; [discriminate|]].
      * cbn [after jobs_migration]. rewrite Hread, Hcol. reflexivity.
      * intros text' fn' rows' [= <-] Hread'. rewrite Hread in Hread'.
        injection Hread' as <- <-. split; [reflexivity|congruence].
    + eexists. split; [reflexivity|]. split; [|split; [discriminate|]].
      * cbn [after jobs_migration]. rewrite jobs_rewritten. reflexivity.
      * intros text' fn' rows' [= <-] Hread'. rewrite Hread in Hread'.
        injection Hread' as <- <-. split; [congruence|]. intros _.
        eexists. split; [reflexivity|]. apply jobs_rewritten.
  - exists (WriteFile (DictWriter_writeheader JOB_COLS)).
    split; [reflexivity|]. split; [|split; [reflexivity|discriminate]].
    unfold after, jobs_migration. rewrite DictReader_jobs_header. reflexivity.
Qed.

Lemma spools_migration_ok (file : option string) :
  migration_ok spools_migration SPOOL_COLS "Other Material" file.
Proof.
  unfold migration_ok. destruct file as [text|].
  - destruct (DictReader_total text) as (fn & rows & Hread).
    unfold spools_migration at 1. rewrite Hread.
    destruct (has_column "Other Material" fn) eqn:Hcol; cbn [negb].
    + exists NoWrite. split; [reflexivity|]. split; [|split; [discriminate|]].
      * cbn [after spools_migration]. rewrite Hread, Hcol. reflexivity.
      * intros text' fn' rows' [= <-] Hread'. rewrite Hread in Hread'.
        injection Hread' as <- <-. split; [reflexivity|congruence].
    + pose proof (spools_rewritten rows (DictReader_rows_keys _ _ _ _ Hread Hcol))
        as Hback.
      eexists. split; [reflexivity|]. split; [|split; [discriminate|]].
      * unfold after, spools_migration. cbn zeta in Hback |- *.
        rewrite Hback. reflexivity.
      * intros text' fn' rows' [= <-] Hread'. rewrite Hread in Hread'.
        injection Hread' as <- <-. split; [congruence|]. intros _.
        eexists. split; [reflexivity|]. cbn zeta in Hback |- *. exact Hback.
  - exists (WriteFile (DictWriter_writeheader SPOOL_COLS)).
    split; [reflexivity|]. split; [|split; [reflexivity|discriminate]].
    unfold after, spools_migration. rewrite DictReader_spools_header. reflexivity.
Qed.

Lemma lookup_write_to_eq (path : string) (a : write_action) (fs : files) :
  write_to path a fs !! path = after a (fs !! path).
Proof. destruct a; [reflexivity|]. apply lookup_insert_eq. Qed.

Lemma lookup_write_to_ne (path other : string) (a : write_action) (fs : files) :
  path <> other -> write_to path a fs !! other = fs !! other.
Proof. intros Hne. destruct a; [reflexivity|]. apply lookup_insert_ne. exact Hne. Qed.

Lemma write_to_NoWrite (path : string) (fs : files) : write_to path NoWrite fs = fs.
Proof. reflexivity. Qed.

(** A file the spools step wrote has a [Spool ID] column, so the jobs
    step leaves it alone. *)
Lemma jobs_after_spools_write (file : option string) (text : string) :
  spools_migration file = Some (WriteFile text) ->
  jobs_migration (Some text) = Some NoWrite.
Proof.
  intros Hstep.
  assert (exists rows, DictReader text = Some (Some SPOOL_COLS, rows)) as [rows Hback].
  { destruct (spools_migration_ok file) as (a & Ha & _ & Hnone & Hsome).
    rewrite Hstep in Ha. injection Ha as <-.
    destruct file as [old|].
    - destruct (DictReader_total old) as (fn & rows & Hread).
      destruct (Hsome old fn rows eq_refl Hread) as [Hhas Hlacks].
      destruct (has_column "Other Material" fn).
      + specialize (Hhas eq_refl). discriminate.
      + destruct (Hlacks eq_refl) as (text' & [= <-] & Hback). eexists. exact Hback.
    - specialize (Hnone eq_refl). injection Hnone as ->.
      eexists. apply DictReader_spools_header. }
  cbn [jobs_migration]. rewrite Hback. reflexivity.
Qed.

(** The block run twice leaves the files as the first run left them. *)
Lemma migrate_twice (jobs_csv spools_csv : string) (fs : files) :
  exists fs1, migrate jobs_csv spools_csv fs = Some fs1
              /\ migrate jobs_csv spools_csv fs1 = Some fs1.
Proof.
  destruct (jobs_migration_ok (fs !! jobs_csv)) as (a & Ha & Ha2 & _).
  destruct (spools_migration_ok (write_to jobs_csv a fs !! spools_csv))
    as (b & Hb & Hb2 & _).
  exists (write_to spools_csv b (write_to jobs_csv a fs)).
  unfold migrate at 1. rewrite Ha. cbn zeta. rewrite Hb. split; [reflexivity|].
  unfold migrate.
  assert (jobs_migration (write_to spools_csv b (write_to jobs_csv a fs) !! jobs_csv)
          = Some NoWrite) as ->.
  { destruct b as [|text].
    - rewrite write_to_NoWrite, lookup_write_to_eq. exact Ha2.
    - destruct (decide (spools_csv = jobs_csv)) as [->|Hne].
      + rewrite lookup_write_to_eq. cbn [after].
        eapply jobs_after_spools_write. exact Hb.
      + rewrite lookup_write_to_ne by exact Hne.
        rewrite lookup_write_to_eq. exact Ha2. }
  cbn zeta. rewrite write_to_NoWrite, lookup_write_to_eq, Hb2. reflexivity.
Qed.

(** C7. The start-up migration is idempotent: for every file, each step
    (jobs file with [Spool ID], spools file with [Other Material]) run on
    its own result writes nothing, so the file after two runs is the file
    after one, and so is the whole block on any set of files; when the
    header already has the column the file is not written at all; when it
    lacks it the file is written anew under the new schema and reads back
    as the old rows, in order, with the new column empty and every other
    value kept. *)
Theorem migration_idempotent (file : option string)
    (jobs_csv spools_csv : string) (fs : files) :
  migration_ok jobs_migration JOB_COLS "Spool ID" file
  /\ migration_ok spools_migration SPOOL_COLS "Other Material" file
  /\ exists fs1, migrate jobs_csv spools_csv fs = Some fs1
                 /\ migrate jobs_csv spools_csv fs1 = Some fs1.
Proof.
  split; [apply jobs_migration_ok|].
  split; [apply spools_migration_ok|apply migrate_twice].
Qed.

End Migration.

Lemma migration_idempotent_witness :
  exists text' rows',
    jobs_migration (Some legacy_jobs) = Some (WriteFile text')
    /\ DictReader text' = Some (Some JOB_COLS, rows')
    /\ map (values_of JOB_COLS) rows'
       = [[Some "2024-01-01"; Some "bracket"; Some "50"; Some "failed"; Some "5"; Some ""];
          [Some "2024-01-02"; Some "hook"; Some ""; Some ""; Some ""; Some ""]].
Proof.
  destruct (migration_idempotent (Some legacy_jobs) "" "" ∅)
    as ((a & Ha & _ & _ & Hsome) & _).
  assert (DictReader legacy_jobs
          = Some (Some ["Date"; "Name of Job"; "Grams Potential"; "Status"; "Lost (g)"],
                  map (dict_row ["Date"; "Name of Job"; "Grams Potential"; "Status";
                                 "Lost (g)"])
                      [["2024-01-01"; "bracket"; "50"; "failed"; "5"];
                       ["2024-01-02"; "hook"]])) as Hread
    by (vm_compute; reflexivity).
  destruct (Hsome legacy_jobs _ _ eq_refl Hread) as [_ Hlacks].
  destruct (Hlacks eq_refl) as (text' & -> & Hback).
  eexists text', _.
  split; [exact Ha|]. split; [exact Hback|].
  vm_compute. reflexivity.
Defined.

(** ** Loading and saving *)

Section LoadSave.

Variable header : list string.
Hypothesis header_nonempty : header <> [].

Lemma not_in_dict_comp (k : string) (f : string -> pyval) :
  In k header -> not_in k (dict_comp header f) = false.
Proof.
  intros Hin. apply str_in_In in Hin. unfold not_in.
  rewrite dict_comp_lookup, Hin. reflexivity.
Qed.

(** Reading a row that already has every column of the schema changes
    nothing. *)
Lemma read_row_full (f : string -> pyval) :
  read_row header (dict_comp header f) = dict_comp header f.
Proof.
  unfold read_row, list_eqb.
  assert (list_eqb header JOB_COLS && not_in "Spool ID" (dict_comp header f) = false)
    as Hjobs.
  { unfold list_eqb. destruct (bool_decide_reflect (header = JOB_COLS)) as [Heq|];
      [|reflexivity].
    rewrite not_in_dict_comp; [reflexivity|]. rewrite Heq. cbn. auto 10. }
  unfold list_eqb in Hjobs. rewrite Hjobs.
  assert (list_eqb header SPOOL_COLS && not_in "Other Material" (dict_comp header f) = false)
    as Hspools.
  { unfold list_eqb. destruct (bool_decide_reflect (header = SPOOL_COLS)) as [Heq|];
      [|reflexivity].
    rewrite not_in_dict_comp; [reflexivity|]. rewrite Heq. cbn. auto 10. }
  unfold list_eqb in Hspools. rewrite Hspools.
  apply dict_comp_ext. intros k Hk. apply dict_get_comp. exact Hk.
Qed.

Lemma normalized_idempotent (r : row) :
  normalized header (normalized header r) = normalized header r.
Proof.
  unfold normalized. apply dict_comp_ext. intros k Hk.
  rewrite dict_get_comp by exact Hk. reflexivity.
Qed.

(** Saving rows and loading the file again gives the normalised rows. *)
Lemma read_rows_written (path : string) (rows : list row) (fs : files) :
  read_rows path header (write_rows path header rows fs)
  = Some (map (normalized header) rows, write_rows path header rows fs).
Proof.
  unfold read_rows, ensure_csv, write_rows. rewrite !lookup_insert_eq.
  unfold rows_text.
  rewrite <- (map_map (fun r => dict_comp header (fun c => dict_get r c (Some "")))
                (DictWriter_writerow header)).
  rewrite DictReader_written by exact header_nonempty.
  f_equal. f_equal. rewrite !map_map. apply map_ext. intros r.
  rewrite read_row_full. unfold normalized.
  apply dict_comp_ext. intros k Hk. rewrite dict_get_comp by exact Hk. reflexivity.
Qed.

(** Loading never raises. *)
Lemma read_rows_total (path : string) (fs : files) :
  exists rows fs1, read_rows path header fs = Some (rows, fs1).
Proof.
  unfold read_rows.
  assert (exists text, ensure_csv path header fs !! path = Some text) as [text ->].
  { unfold ensure_csv. destruct (fs !! path) as [text|] eqn:Hfile.
    - exists text. exact Hfile.
    - eexists. apply lookup_insert_eq. }
  destruct (DictReader_total text) as (fn & rs & ->). eexists _, _. reflexivity.
Qed.

(** After the first save and load, a further save and load changes
    nothing: the rows are already normalised. *)
Lemma save_load_stable (path : string) (rows : list row) (fs : files) :
  let rows1 := map (normalized header) rows in
  read_rows path header (write_rows path header rows fs)
    = Some (rows1, write_rows path header rows fs)
  /\ read_rows path header (write_rows path header rows1 (write_rows path header rows fs))
    = Some (rows1, write_rows path header rows1 (write_rows path header rows fs)).
Proof.
  cbn zeta. split; [apply read_rows_written|].
  rewrite read_rows_written. f_equal. f_equal.
  rewrite map_map. apply map_ext. intros r. apply normalized_idempotent.
Qed.

End LoadSave.

(** C8, at a file with a short row. The file holds the full jobs header
    and one data row with two of the six values. The first load gives
    [None] for the four missing values; saving these rows and loading
    again gives the empty string for them: the records read back differ
    from the records first loaded. *)
Theorem load_save_load_short_row :
  exists rows1 fs1 rows2 fs2,
    read_rows "filament_log.csv" JOB_COLS short_row_jobs = Some (rows1, fs1)
    /\ read_rows "filament_log.csv" JOB_COLS
         (write_rows "filament_log.csv" JOB_COLS rows1 fs1) = Some (rows2, fs2)
    /\ map (values_of JOB_COLS) rows1
       = [[Some "2024-01-02"; Some "hook"; None; None; None; None]]
    /\ map (values_of JOB_COLS) rows2
       = [[Some "2024-01-02"; Some "hook"; Some ""; Some ""; Some ""; Some ""]]
    /\ rows1 <> rows2.
Proof.
  exists (map (read_row JOB_COLS) [dict_row JOB_COLS ["2024-01-02"; "hook"]]),
         short_row_jobs.
  eexists _, _.
  split; [vm_compute; reflexivity|].
  split; [apply read_rows_written; discriminate|].
  split; [vm_compute; reflexivity|].
  split; [vm_compute; reflexivity|].
  intros Heq. apply (f_equal (map (values_of JOB_COLS))) in Heq.
  vm_compute in Heq. discriminate.
Qed.

(** ** More on the row store: [ensure_csv], [read_rows], [write_rows] *)

Section RowStore.

Lemma DictReader_header_only (header : list string) :
  exists fieldnames, DictReader (DictWriter_writeheader header) = Some (fieldnames, []).
Proof.
  destruct header as [|c header].
  - eexists. vm_compute. reflexivity.
  - exists (Some (c :: header)).
    pose proof (DictReader_written (c :: header) []) as H.
    cbn [map cat fold_right] in H. rewrite str_app_nil_r in H.
    apply H. discriminate.
Qed.

(** X1. Loading a file that does not exist creates it with the header
    line alone and returns no rows. *)
Theorem read_rows_missing_file (path : string) (header : list string) (fs : files) :
  fs !! path = None ->
  read_rows path header fs
  = Some ([], <[path := Writer.writerow header]> fs).
Proof.
  intros Hmissing. unfold read_rows, ensure_csv. rewrite Hmissing.
  rewrite lookup_insert_eq.
  destruct (DictReader_header_only header) as [fn ->]. reflexivity.
Qed.

Lemma read_rows_missing_file_witness :
  read_rows "filament_spools.csv" SPOOL_COLS legacy_files
  = Some ([], <["filament_spools.csv" := Writer.writerow SPOOL_COLS]> legacy_files).
Proof. apply read_rows_missing_file. vm_compute. reflexivity. Defined.

(** X2. Loading an existing file never raises, whatever the file holds,
    and leaves all files as they were. *)
Theorem read_rows_existing_file (path : string) (header : list string) (fs : files)
    (text : string) :
  fs !! path = Some text ->
  exists rows, read_rows path header fs = Some (rows, fs).
Proof.
  intros Hfile. unfold read_rows, ensure_csv. rewrite Hfile, Hfile.
  destruct (DictReader_total text) as (fn & rs & ->). eexists. reflexivity.
Qed.

Lemma read_rows_existing_file_witness :
  exists rows, read_rows "filament_log.csv" JOB_COLS legacy_files = Some (rows, legacy_files).
Proof.
  apply (read_rows_existing_file "filament_log.csv" JOB_COLS legacy_files legacy_jobs).
  vm_compute. reflexivity.
Defined.

Lemma read_row_lookup (header : list string) (r0 : row) (k : string) :
  read_row header r0 !! k
  = if str_in k header
    then Some (if list_eqb header JOB_COLS && not_in "Spool ID" r0 && String.eqb k "Spool ID"
               then Some EmptyString
               else if list_eqb header SPOOL_COLS && not_in "Other Material" r0
                       && String.eqb k "Other Material"
               then Some EmptyString
               else dict_get r0 k (Some ""))
    else None.
Proof.
  unfold read_row.
  destruct (list_eqb header JOB_COLS) eqn:Hj; cbn [andb].
  - assert (list_eqb header SPOOL_COLS = false) as Hs.
    { unfold list_eqb in *. apply bool_decide_eq_true in Hj. rewrite Hj. reflexivity. }
    rewrite Hs. cbn [andb]. rewrite dict_comp_lookup.
    destruct (str_in k header); [|reflexivity].
    destruct (not_in "Spool ID" r0) eqn:Hn; cbn [andb]; [|reflexivity].
    destruct (String.eqb_spec k "Spool ID") as [->|Hne].
    + unfold dict_get. rewrite lookup_insert_eq. reflexivity.
    + unfold dict_get. rewrite lookup_insert_ne by congruence. reflexivity.
  - destruct (list_eqb header SPOOL_COLS) eqn:Hs; cbn [andb].
    + destruct (not_in "Other Material" r0) eqn:Hn; cbn [andb].
      * destruct (String.eqb_spec k "Other Material") as [->|Hne].
        -- rewrite lookup_insert_eq.
           unfold list_eqb in Hs. apply bool_decide_eq_true in Hs. rewrite Hs.
           reflexivity.
        -- rewrite lookup_insert_ne by congruence. rewrite dict_comp_lookup.
           reflexivity.
      * rewrite dict_comp_lookup. reflexivity.
    + rewrite dict_comp_lookup. reflexivity.
Qed.

(** X3. Every row that [read_rows] returns has exactly the columns of the
    schema as its keys: columns of the file that the schema lacks are
    dropped, columns the file lacks are present. *)
Theorem read_rows_keys (path : string) (header : list string) (fs fs' : files)
    (rows : list row) :
  read_rows path header fs = Some (rows, fs') ->
  forall r, In r rows -> forall k, is_Some (r !! k) <-> In k header.
Proof.
  unfold read_rows. destruct (ensure_csv path header fs !! path) as [text|]; [|discriminate].
  destruct (DictReader text) as [[fn rs]|]; [|discriminate].
  intros [= <- _] r Hr k. apply in_map_iff in Hr as (r0 & <- & _).
  rewrite read_row_lookup, <- str_in_In.
  destruct (str_in k header); split; intros H; try reflexivity; try discriminate.
  - eexists. reflexivity.
  - destruct H as [? H]. discriminate.
Qed.

Lemma read_rows_keys_witness :
  exists rows fs',
    read_rows "filament_log.csv" JOB_COLS legacy_files = Some (rows, fs')
    /\ forall r, In r rows -> is_Some (r !! "Spool ID").
Proof.
  destruct (read_rows_total JOB_COLS "filament_log.csv" legacy_files)
    as (rows & fs' & Hload).
  exists rows, fs'. split; [exact Hload|]. intros r Hr.
  apply (read_rows_keys "filament_log.csv" JOB_COLS legacy_files fs' rows Hload r Hr).
  vm_compute. auto 10.
Defined.

(** X4. The back-fill: a column of the schema that the file's header
    lacks reads as the empty string in every row. *)
Theorem read_rows_backfill (path : string) (header : list string) (fs fs' : files)
    (text : string) (fieldnames : option (list string)) (recs rows : list row)
    (col : string) :
  fs !! path = Some text ->
  DictReader text = Some (fieldnames, recs) ->
  has_column col fieldnames = false ->
  In col header ->
  read_rows path header fs = Some (rows, fs') ->
  length rows = length recs
  /\ forall r, In r rows -> r !! col = Some (Some "").
Proof.
  intros Hfile Hread Hcol Hin. unfold read_rows, ensure_csv.
  rewrite Hfile, Hfile, Hread. intros [= <- _].
  split; [apply length_map|].
  intros r Hr. apply in_map_iff in Hr as (r0 & <- & Hr0).
  pose proof (DictReader_rows_keys _ _ _ _ Hread Hcol) as Hkeys.
  rewrite List.Forall_forall in Hkeys. specialize (Hkeys r0 Hr0).
  rewrite read_row_lookup. apply str_in_In in Hin. rewrite Hin.
  unfold dict_get. rewrite Hkeys.
  repeat match goal with |- context [if ?b then _ else _] => destruct b end;
    reflexivity.
Qed.

Lemma read_rows_backfill_witness :
  exists rows fs',
    read_rows "filament_log.csv" JOB_COLS legacy_files = Some (rows, fs')
    /\ length rows = 2%nat
    /\ forall r, In r rows -> r !! "Spool ID" = Some (Some "").
Proof.
  destruct (read_rows_total JOB_COLS "filament_log.csv" legacy_files)
    as (rows & fs' & Hload).
  exists rows, fs'. split; [exact Hload|].
  apply (read_rows_backfill "filament_log.csv" JOB_COLS legacy_files fs' legacy_jobs
           (Some ["Date"; "Name of Job"; "Grams Potential"; "Status"; "Lost (g)"])
           (map (dict_row ["Date"; "Name of Job"; "Grams Potential"; "Status"; "Lost (g)"])
                [["2024-01-01"; "bracket"; "50"; "failed"; "5"]; ["2024-01-02"; "hook"]])
           rows "Spool ID").
  - vm_compute. reflexivity.
  - vm_compute. reflexivity.
  - reflexivity.
  - vm_compute. auto 10.
  - exact Hload.
Defined.

Lemma normalized_complete (header : list string) (r : row) :
  complete header r -> normalized header r = r.
Proof.
  intros Hc. apply map_eq. intros k. unfold normalized.
  rewrite dict_comp_lookup. destruct (Hc k) as [Hin Hout].
  destruct (str_in k header) eqn:Hk.
  - apply str_in_In in Hk. destruct (Hin Hk) as [s Hs].
    unfold dict_get. rewrite Hs. reflexivity.
  - symmetry. apply Hout. intros Hk'. apply str_in_In in Hk'. congruence.
Qed.

(** X5. Save and load round trip: rows that have a string for every
    column of a non-empty schema, and nothing else, are read back exactly
    as they were saved, whatever characters their cells hold (commas,
    quotes, line breaks) and whatever the file held before. *)
Theorem write_read_round_trip (path : string) (header : list string)
    (rows : list row) (fs : files) :
  header <> [] ->
  (forall r, In r rows -> complete header r) ->
  read_rows path header (write_rows path header rows fs)
  = Some (rows, write_rows path header rows fs).
Proof.
  intros Hh Hrows. rewrite read_rows_written by exact Hh.
  f_equal. f_equal. rewrite <- (map_id rows) at 2.
  apply map_ext_in. intros r Hr. apply normalized_complete, Hrows, Hr.
Qed.

Lemma two_jobs_complete : forall r, In r two_jobs -> complete JOB_COLS r.
Proof.
  intros r Hr k. unfold two_jobs in Hr.
  destruct Hr as [<-|[<-|[]]]; rewrite dict_comp_lookup; split.
  - intros Hk. apply str_in_In in Hk. rewrite Hk. eexists. reflexivity.
  - intros Hk. destruct (str_in k JOB_COLS) eqn:E; [|reflexivity].
    apply str_in_In in E. contradiction.
  - intros Hk. apply str_in_In in Hk. rewrite Hk. eexists. reflexivity.
  - intros Hk. destruct (str_in k JOB_COLS) eqn:E; [|reflexivity].
    apply str_in_In in E. contradiction.
Defined.

Lemma write_read_round_trip_witness :
  read_rows "filament_log.csv" JOB_COLS
    (write_rows "filament_log.csv" JOB_COLS two_jobs legacy_files)
  = Some (two_jobs, write_rows "filament_log.csv" JOB_COLS two_jobs legacy_files).
Proof.
  apply write_read_round_trip; [discriminate|exact two_jobs_complete].
Defined.

Lemma rows_text_normalized (header : list string) (rows : list row) :
  rows_text header (map (normalized header) rows) = rows_text header rows.
Proof.
  unfold rows_text. f_equal. f_equal. rewrite map_map. apply map_ext. intros r.
  unfold DictWriter_writerow. f_equal. apply map_ext_in. intros k Hk.
  rewrite !dict_get_comp by exact Hk. unfold normalized.
  rewrite dict_get_comp by exact Hk. reflexivity.
Qed.

(** X6. After one save and load, saving what was loaded and loading again
    changes nothing more: the second cycle returns the rows of the first,
    for any rows and any non-empty schema ([None] cells and missing keys
    have become empty strings in the first cycle), and the file written
    the second time is the file written the first time. *)
Theorem save_load_twice (path : string) (header : list string)
    (rows rows1 rows2 : list row) (fs fs1 fs2 : files) :
  header <> [] ->
  read_rows path header (write_rows path header rows fs) = Some (rows1, fs1) ->
  read_rows path header (write_rows path header rows1 fs1) = Some (rows2, fs2) ->
  rows2 = rows1
  /\ (forall r, In r rows1 -> complete header r)
  /\ fs2 !! path = fs1 !! path.
Proof.
  intros Hh Hfirst Hsecond.
  rewrite read_rows_written in Hfirst by exact Hh. injection Hfirst as <- <-.
  rewrite read_rows_written in Hsecond by exact Hh. injection Hsecond as <- <-.
  split; [|split].
  - rewrite map_map. apply map_ext. intros r. apply normalized_idempotent.
  - intros r Hr. apply in_map_iff in Hr as (r0 & <- & _). intros k.
    unfold normalized. rewrite dict_comp_lookup. split.
    + intros Hk. apply str_in_In in Hk. rewrite Hk. eexists. reflexivity.
    + intros Hk. destruct (str_in k header) eqn:E; [|reflexivity].
      apply str_in_In in E. contradiction.
  - unfold write_rows. rewrite !lookup_insert_eq. f_equal.
    apply rows_text_normalized.
Qed.

End RowStore.

Lemma save_load_twice_witness :
  map (normalized JOB_COLS) (map (normalized JOB_COLS) example_jobs)
  = map (normalized JOB_COLS) example_jobs.
Proof.
  apply (save_load_twice "filament_log.csv" JOB_COLS example_jobs
           (map (normalized JOB_COLS) example_jobs)
           (map (normalized JOB_COLS) (map (normalized JOB_COLS) example_jobs))
           legacy_files
           (write_rows "filament_log.csv" JOB_COLS example_jobs legacy_files)
           (write_rows "filament_log.csv" JOB_COLS (map (normalized JOB_COLS) example_jobs)
              (write_rows "filament_log.csv" JOB_COLS example_jobs legacy_files))).
  - discriminate.
  - apply read_rows_written. discriminate.
  - apply read_rows_written. discriminate.
Defined.

(** ** More on [gen_spool_id] *)

Section GeneratorMore.

Variable now : datetime.

Lemma fold_max_app (a b : list N) :
  fold_right N.max 0 (a ++ b) = N.max (fold_right N.max 0 a) (fold_right N.max 0 b).
Proof.
  induction a as [|n a IH]; [cbn [app fold_right]; lia|].
  cbn [app fold_right]. rewrite IH. lia.
Qed.

Lemma today_numbers_app (a b : list string) :
  today_numbers (spool_prefix now) (a ++ b)
  = today_numbers (spool_prefix now) a ++ today_numbers (spool_prefix now) b.
Proof. unfold today_numbers. rewrite List.filter_app, map_app. reflexivity. Qed.

Lemma today_numbers_generated (ids : list string) :
  today_numbers (spool_prefix now) [gen_spool_id_spec now ids]
  = [next_number (spool_prefix now) ids].
Proof.
  unfold today_numbers. cbn [List.filter].
  unfold matching_id. rewrite tail_of_gen_spool_id, isdecimal_format_0d.
  rewrite gen_spool_id_spec_next, startswith_app. cbn [andb map].
  rewrite <- gen_spool_id_spec_next, tail_of_gen_spool_id, decimal_value_format_0d.
  reflexivity.
Qed.

(** X7. Once a generated id has been added to the ids (anywhere among
    them), the next id generated carries the next number: [int] reads the
    two last parts as consecutive numbers, the two ids differ, and the
    second is not among the ids either. *)
Theorem gen_spool_id_successive (before after : list string) (first second : string) :
  gen_spool_id now (before ++ after) = Some first ->
  gen_spool_id now (before ++ first :: after) = Some second ->
  (exists n, int (tail_of first) = Some n /\ int (tail_of second) = Some (n + 1))
  /\ second <> first
  /\ ~ In second (before ++ first :: after).
Proof.
  intros Hfirst Hsecond.
  apply gen_spool_id_Some in Hfirst as (Hfirst & _ & Hfit1).
  apply gen_spool_id_Some in Hsecond as (Hsecond & _ & Hfit2).
  assert (next_number (spool_prefix now) (before ++ first :: after)
          = next_number (spool_prefix now) (before ++ after) + 1) as Hnext.
  { rewrite !next_number_max.
    change (first :: after) with ([first] ++ after).
    rewrite !today_numbers_app, Hfirst, today_numbers_generated, !fold_max_app.
    rewrite next_number_max, today_numbers_app, fold_max_app.
    cbn [fold_right]. lia. }
  assert (int (tail_of first) = Some (next_number (spool_prefix now) (before ++ after)))
    as Hint1 by (rewrite Hfirst; apply int_tail_generated, Hfit1).
  assert (int (tail_of second)
          = Some (next_number (spool_prefix now) (before ++ after) + 1))
    as Hint2 by (rewrite Hsecond, <- Hnext; apply int_tail_generated, Hfit2).
  split; [|split].
  - eexists. split; [exact Hint1|exact Hint2].
  - intros Heq. rewrite Heq, Hint1 in Hint2. injection Hint2 as Hint2. lia.
  - rewrite Hsecond. apply gen_spool_id_not_in.
Qed.

Lemma fold_max_today_perm (ids ids' : list string) :
  Permutation ids ids' ->
  fold_right N.max 0 (today_numbers (spool_prefix now) ids)
  = fold_right N.max 0 (today_numbers (spool_prefix now) ids').
Proof.
  induction 1 as [|x l l' _ IH|x y l|l l' l'' _ IH1 _ IH2].
  - reflexivity.
  - change (x :: l) with ([x] ++ l). change (x :: l') with ([x] ++ l').
    rewrite !today_numbers_app, !fold_max_app, IH. reflexivity.
  - change (y :: x :: l) with ([y] ++ [x] ++ l).
    change (x :: y :: l) with ([x] ++ [y] ++ l).
    rewrite !today_numbers_app, !fold_max_app. lia.
  - rewrite IH1. exact IH2.
Qed.

Lemma rejected_perm (ids ids' : list string) :
  Permutation ids ids' ->
  existsb (rejected_id (spool_prefix now)) ids
  = existsb (rejected_id (spool_prefix now)) ids'.
Proof.
  induction 1 as [|x l l' _ IH|x y l|l l' l'' _ IH1 _ IH2].
  - reflexivity.
  - cbn [existsb]. rewrite IH. reflexivity.
  - cbn [existsb]. rewrite !orb_assoc.
    rewrite (orb_comm (rejected_id _ y)). reflexivity.
  - rewrite IH1. exact IH2.
Qed.

(** X8. The outcome of the call, the id returned or the [ValueError],
    does not depend on the order of the existing ids. *)
Theorem gen_spool_id_order (ids ids' : list string) :
  Permutation ids ids' -> gen_spool_id now ids = gen_spool_id now ids'.
Proof.
  intros Hperm. rewrite !gen_spool_id_cases. unfold gen_spool_id_raises.
  rewrite !gen_spool_id_spec_next, !next_number_max.
  rewrite (fold_max_today_perm ids ids' Hperm), (rejected_perm ids ids' Hperm).
  reflexivity.
Qed.

End GeneratorMore.

Lemma gen_spool_id_successive_witness :
  (exists n, int "0002" = Some n /\ int "0003" = Some (n + 1))
  /\ "SP-20240101-0003" <> "SP-20240101-0002"
  /\ ~ In "SP-20240101-0003" ["SP-20240101-0001"; "SP-20240101-0002"; "spare"].
Proof.
  apply (gen_spool_id_successive today_2024 ["SP-20240101-0001"] ["spare"]
           "SP-20240101-0002" "SP-20240101-0003");
    vm_compute; reflexivity.
Defined.

Lemma gen_spool_id_order_witness :
  gen_spool_id today_2024 ["SP-20240101-0003"; "SP-20240101-0001"; "x"]
  = gen_spool_id today_2024 ["x"; "SP-20240101-0001"; "SP-20240101-0003"].
Proof.
  apply gen_spool_id_order.
  apply perm_trans with ["SP-20240101-0001"; "SP-20240101-0003"; "x"].
  - apply perm_swap.
  - apply Permutation_sym. apply (Permutation_cons_append ["SP-20240101-0001"; "SP-20240101-0003"] "x").
Defined.

(** ** More on the dialogs *)

Section Stripping.

Lemma lstrip_first (c : ascii) (s : string) :
  isspace c = false -> lstrip (String c s) = String c s.
Proof. intros H. cbn [lstrip]. rewrite H. reflexivity. Qed.

Lemma rstrip_head (c : ascii) (s : string) :
  isspace c = false -> exists r, rstrip (String c s) = String c r.
Proof.
  intros H. cbn [rstrip]. destruct (rstrip s).
  - rewrite H. eexists. reflexivity.
  - eexists. reflexivity.
Qed.

Lemma rstrip_idempotent (s : string) : rstrip (rstrip s) = rstrip s.
Proof.
  induction s as [|c s IH]; [reflexivity|].
  cbn [rstrip]. destruct (rstrip s) as [|d r] eqn:Hr.
  - destruct (isspace c) eqn:Hc; [reflexivity|].
    cbn [rstrip]. rewrite Hc. reflexivity.
  - change (rstrip (String c (String d r))) with
      (match rstrip (String d r) with
       | EmptyString => if isspace c then EmptyString else String c EmptyString
       | r' => String c r'
       end).
    rewrite IH. reflexivity.
Qed.

Lemma lstrip_cases (s : string) :
  lstrip s = EmptyString \/ exists c r, lstrip s = String c r /\ isspace c = false.
Proof.
  induction s as [|c s IH]; [left; reflexivity|].
  cbn [lstrip]. destruct (isspace c) eqn:Hc; [exact IH|].
  right. exists c, s. split; [reflexivity|exact Hc].
Qed.

Lemma strip_cases (s : string) :
  strip s = EmptyString \/ exists c r, strip s = String c r /\ isspace c = false.
Proof.
  unfold strip. destruct (lstrip_cases s) as [->|(c & r & -> & Hc)].
  - left. reflexivity.
  - right. destruct (rstrip_head c r Hc) as [r' ->]. exists c, r'. split; [reflexivity|exact Hc].
Qed.

Lemma strip_idempotent (s : string) : strip (strip s) = strip s.
Proof.
  assert (lstrip (strip s) = strip s) as Hl.
  { destruct (strip_cases s) as [->|(c & r & -> & Hc)]; [reflexivity|].
    apply lstrip_first, Hc. }
  unfold strip at 1. rewrite Hl. unfold strip. apply rstrip_idempotent.
Qed.

Lemma rstrip_no_space (s : string) : no_space s = true -> rstrip s = s.
Proof.
  unfold no_space. induction s as [|c s IH]; [reflexivity|].
  cbn [Str.all]. intros H. apply andb_prop in H as [Hc Hs].
  apply negb_true_iff in Hc. cbn [rstrip]. rewrite (IH Hs).
  destruct s; [rewrite Hc|]; reflexivity.
Qed.

Lemma strip_no_space (s : string) : no_space s = true -> strip s = s.
Proof.
  intros H. unfold strip.
  assert (lstrip s = s) as ->; [|apply rstrip_no_space, H].
  destruct s as [|c s]; [reflexivity|].
  unfold no_space in H. cbn [Str.all] in H. apply andb_prop in H as [Hc _].
  apply negb_true_iff in Hc. apply lstrip_first, Hc.
Qed.

Lemma no_space_app (s t : string) : no_space (s +:+ t) = no_space s && no_space t.
Proof. apply str_all_app. Qed.

Lemma digit_no_space (c : ascii) : is_digit c = true -> isspace c = false.
Proof.
  unfold is_digit, isspace. intros Hc.
  apply andb_prop in Hc as [H1 H2]. apply N.leb_le in H1, H2.
  repeat apply orb_false_intro.
  - apply andb_false_intro2, N.leb_gt. lia.
  - apply andb_false_intro2, N.leb_gt. lia.
  - apply N.eqb_neq. lia.
  - apply N.eqb_neq. lia.
Qed.

Lemma digits_no_space (s : string) : Str.all is_digit s = true -> no_space s = true.
Proof.
  unfold no_space. induction s as [|c s IH]; [reflexivity|].
  cbn [Str.all]. intros H. apply andb_prop in H as [Hc Hs].
  rewrite (IH Hs), andb_true_r, (digit_no_space c Hc). reflexivity.
Qed.

Lemma strip_gen_spool_id (now : datetime) (ids : list string) :
  strip (gen_spool_id_spec now ids) = gen_spool_id_spec now ids.
Proof.
  apply strip_no_space. rewrite gen_spool_id_spec_next. unfold spool_prefix.
  rewrite !no_space_app.
  rewrite (digits_no_space _ (all_digits_strftime now)).
  rewrite (digits_no_space _ (all_digits_format_0d 4 _)). reflexivity.
Qed.

Lemma strip_strftime_Y_m_d (now : datetime) :
  strip (strftime_Y_m_d now) = strftime_Y_m_d now.
Proof.
  apply strip_no_space. unfold strftime_Y_m_d. rewrite !no_space_app.
  rewrite !(digits_no_space _ (all_digits_format_0d _ _)). reflexivity.
Qed.

Lemma gen_spool_id_nonempty (now : datetime) (ids : list string) :
  gen_spool_id_spec now ids <> EmptyString.
Proof. rewrite gen_spool_id_spec_next. unfold spool_prefix. discriminate. Qed.

End Stripping.

(** X9. When [gen_spool_id] returns an id for the ids of the table,
    adding a spool and pressing OK without touching the form succeeds: the
    dialog [add_spool] opens passes validation, and the row appended to the
    spools table carries the generated id, which none of the existing rows
    has, with the defaults PLA, Black, 1000 g and today's date. When
    [gen_spool_id] raises, so does [add_spool], before any dialog is
    opened. *)
Theorem add_spool_defaults_accepted (now : datetime) (existing : list string)
    (tree : treeview) :
  (forall init, add_spool_initial now existing = Some init ->
     exists default_id data,
       gen_spool_id now existing = Some default_id
       /\ SpoolDialog_ok (SpoolDialog_init now init) (Some App_add_spool_row) tree
          = (Accepted data,
             tree ++ [[Some default_id; Some "PLA"; Some ""; Some "Black";
                       Some ""; Some "1000"; Some ""; Some (strftime_Y_m_d now)]])
       /\ ~ In default_id existing)
  /\ (gen_spool_id now existing = None -> add_spool_initial now existing = None)
  /\ ((forall sid, In sid existing ->
         startswith sid (spool_prefix now) = true ->
         isdigit (tail_of sid) = true -> int (tail_of sid) <> None) ->
      N.of_nat (String.length (str_int (next_number (spool_prefix now) existing)))
      <= max_str_digits ->
      exists init, add_spool_initial now existing = Some init).
Proof.
  split; [|split].
  - intros init Hinit. unfold add_spool_initial in Hinit.
    destruct (gen_spool_id now existing) as [default_id|] eqn:Hgen; [|discriminate].
    injection Hinit as <-.
    apply gen_spool_id_Some in Hgen as (-> & _ & _).
    assert (SpoolDialog_init now
              (<["Spool ID" := Some (gen_spool_id_spec now existing)]>
               (<["Material" := Some "PLA"]> (<["Color" := Some "Black"]>
               (<["Other Color" := Some ""]> (<["Spool Size (g)" := Some "1000"]>
               (<["Notes" := Some ""]>
               (<["Created" := Some (strftime_Y_m_d now)]> ∅)))))))
            = {| id_var := gen_spool_id_spec now existing; material_var := "PLA";
                 other_mat_var := ""; color_var := "Black"; other_color_var := "";
                 size_var := "1000"; notes_var := "";
                 created_var := strftime_Y_m_d now |}) as -> by reflexivity.
    unfold SpoolDialog_ok, SpoolDialog_validate.
    cbn [id_var material_var other_mat_var color_var other_color_var size_var
         notes_var created_var].
    rewrite strip_gen_spool_id, strip_strftime_Y_m_d.
    pose proof (gen_spool_id_nonempty now existing) as Hne.
    apply empty_false in Hne. rewrite Hne.
    eexists. eexists. split; [reflexivity|].
    split; [reflexivity|apply gen_spool_id_not_in].
  - intros Hgen. unfold add_spool_initial. rewrite Hgen. reflexivity.
  - intros Hids Hfit. unfold add_spool_initial.
    rewrite (gen_spool_id_returns_spec now existing Hids Hfit).
    eexists. reflexivity.
Qed.

Lemma add_spool_defaults_accepted_witness :
  (exists init default_id data,
     add_spool_initial today_2024 ["SP-20240101-0001"; "spare"] = Some init
     /\ gen_spool_id today_2024 ["SP-20240101-0001"; "spare"] = Some default_id
     /\ SpoolDialog_ok (SpoolDialog_init today_2024 init) (Some App_add_spool_row) []
        = (Accepted data,
           [[Some default_id; Some "PLA"; Some ""; Some "Black";
             Some ""; Some "1000"; Some ""; Some "2024-01-01"]]))
  /\ add_spool_initial today_2024 [superscript_id] = None.
Proof.
  destruct (add_spool_defaults_accepted today_2024 ["SP-20240101-0001"; "spare"] [])
    as (Haccepted & _ & Hopens).
  destruct Hopens as [init Hinit].
  - intros sid [<-|[<-|[]]] Hs _;
      [vm_compute; discriminate|vm_compute in Hs; discriminate Hs].
  - vm_compute. discriminate.
  - split.
    + destruct (Haccepted init Hinit) as (default_id & data & Hgen & Hok & _).
      exists init, default_id, data.
      split; [exact Hinit|]. split; [exact Hgen|exact Hok].
    + destruct (add_spool_defaults_accepted today_2024 [superscript_id] [])
        as (_ & Hraises & _).
      apply Hraises. vm_compute. reflexivity.
Defined.

Section Lowering.

Lemma isspace_lower_char (c : ascii) : isspace (lower_char c) = isspace c.
Proof. destruct c as [[] [] [] [] [] [] [] []]; reflexivity. Qed.

Lemma lower_char_idempotent (c : ascii) : lower_char (lower_char c) = lower_char c.
Proof. destruct c as [[] [] [] [] [] [] [] []]; reflexivity. Qed.

Lemma lower_idempotent (s : string) : lower (lower s) = lower s.
Proof.
  induction s as [|c s IH]; [reflexivity|].
  cbn [lower]. rewrite lower_char_idempotent, IH. reflexivity.
Qed.

Lemma lstrip_lower (s : string) : lstrip (lower s) = lower (lstrip s).
Proof.
  induction s as [|c s IH]; [reflexivity|].
  cbn [lower lstrip]. rewrite isspace_lower_char.
  destruct (isspace c); [exact IH|reflexivity].
Qed.

Lemma rstrip_lower (s : string) : rstrip (lower s) = lower (rstrip s).
Proof.
  induction s as [|c s IH]; [reflexivity|].
  cbn [lower rstrip]. rewrite IH, isspace_lower_char.
  destruct (rstrip s); cbn [lower]; [destruct (isspace c)|]; reflexivity.
Qed.

Lemma strip_lower (s : string) : strip (lower s) = lower (strip s).
Proof. unfold strip. rewrite lstrip_lower, rstrip_lower. reflexivity. Qed.

(** A stored status is in normal form: trimming and lower-casing it again
    changes nothing. *)
Lemma status_normal_form (s : string) :
  lower (strip (lower (strip s))) = lower (strip s).
Proof. rewrite strip_lower, strip_idempotent, lower_idempotent. reflexivity. Qed.

End Lowering.

Lemma JobDialog_validate_record (dlg : JobDialog) (data : row) :
  JobDialog_validate dlg = inr data ->
  let x := fields_of dlg in
  data
  = <["Date" := Some (f_date x)]> (<["Name of Job" := Some (f_name x)]>
    (<["Grams Potential" := Some (f_potential x)]> (<["Status" := Some (f_status x)]>
    (<["Lost (g)" := Some (if String.eqb (f_status x) "failed" then f_lost x else "")]>
    (<["Spool ID" := Some (f_spool x)]> ∅)))))
  /\ (empty (f_date x) || empty (f_name x)) = false
  /\ (negb (empty (f_potential x)) && negb (is_float (f_potential x))) = false
  /\ str_in (f_status x) STATUSES = true
  /\ (if String.eqb (f_status x) "failed"
      then empty (f_lost x) || negb (is_float (f_lost x))
      else negb (empty (f_lost x)) && negb (is_float (f_lost x))) = false.
Proof.
  unfold JobDialog_validate, fields_of.
  cbn [f_date f_name f_potential f_status f_lost f_spool].
  destruct (empty (strip (date_var dlg)) || empty (strip (name_var dlg)));
    [discriminate|].
  destruct (negb (empty (strip (potential_var dlg)))
            && negb (is_float (strip (potential_var dlg)))); [discriminate|].
  destruct (str_in (lower (strip (status_var dlg))) STATUSES); [|discriminate].
  cbn [negb].
  destruct (String.eqb (lower (strip (status_var dlg))) "failed").
  - destruct (empty (strip (lost_var dlg)) || negb (is_float (strip (lost_var dlg))));
      [discriminate|].
    intros [= <-]. repeat split.
  - destruct (negb (empty (strip (lost_var dlg)))
              && negb (is_float (strip (lost_var dlg)))); [discriminate|].
    intros [= <-]. repeat split.
Qed.

(** X10. Editing a stored job and pressing OK without changing anything
    is accepted and stores the same record: a record that passed
    validation passes it again unchanged when the dialog is opened on
    it. *)
Theorem JobDialog_edit_unchanged (now : datetime) (dlg : JobDialog) (data : row) :
  JobDialog_validate dlg = inr data ->
  JobDialog_validate (JobDialog_init now data) = inr data.
Proof.
  intros Hdata.
  destruct (JobDialog_validate_record dlg data Hdata) as (Hrec & H1 & H2 & H3 & H4).
  cbn zeta in *. unfold fields_of in *.
  cbn [f_date f_name f_potential f_status f_lost f_spool] in *.
  assert (JobDialog_init now data
          = {| date_var := strip (date_var dlg); name_var := strip (name_var dlg);
               potential_var := strip (potential_var dlg);
               status_var := lower (strip (status_var dlg));
               lost_var := if String.eqb (lower (strip (status_var dlg))) "failed"
                           then strip (lost_var dlg) else "";
               spool_var := strip (spool_var dlg) |}) as ->
    by (rewrite Hrec; reflexivity).
  unfold JobDialog_validate.
  cbn [date_var name_var potential_var status_var lost_var spool_var].
  rewrite !strip_idempotent, status_normal_form, H1, H2, H3. cbn [negb].
  destruct (String.eqb (lower (strip (status_var dlg))) "failed").
  - rewrite strip_idempotent, H4. rewrite Hrec. reflexivity.
  - rewrite Hrec. reflexivity.
Qed.

Lemma JobDialog_edit_unchanged_witness :
  exists data, JobDialog_validate (JobDialog_init today_2024 data) = inr data.
Proof.
  destruct (JobDialog_validate failed_job_lost5) as [e|data] eqn:Hv;
    [vm_compute in Hv; discriminate|].
  exists data. apply (JobDialog_edit_unchanged today_2024 failed_job_lost5 data Hv).
Defined.

(** X11. A job that passed validation is counted with the numbers that
    were entered: the aggregator finds the stored status unchanged and
    among the recognised ones; a non-blank potential parses, so it is never
    coerced to zero; for a failed job the lost grams parse and are what
    is added to the consumed and lost totals; for any other status the
    stored lost grams count as zero. *)
Theorem validated_job_counts (dlg : JobDialog) (data : row) :
  JobDialog_validate dlg = inr data ->
  let x := fields_of dlg in
  status_of data = f_status x
  /\ In (f_status x) STATUSES
  /\ (f_potential x <> "" ->
      exists v, float_of_str (f_potential x) = Some v /\ potential_of data = v)
  /\ (f_potential x = "" -> potential_of data = 0%float)
  /\ (f_status x = "failed" ->
      exists v, float_of_str (f_lost x) = Some v
                /\ lost_of data = v
                /\ consumed_contribution data = Some v
                /\ lost_contribution data = Some v)
  /\ (f_status x <> "failed" -> lost_of data = 0%float).
Proof.
  intros Hdata.
  destruct (JobDialog_validate_record dlg data Hdata) as (Hrec & H1 & H2 & H3 & H4).
  cbn zeta in *.
  assert (status_of data = f_status (fields_of dlg)) as Hstatus.
  { rewrite Hrec. unfold status_of, fields_of. cbn [f_status].
    change (dict_get _ "Status" (Some "")) with (Some (lower (strip (status_var dlg)))).
    apply status_normal_form. }
  assert (potential_of data = safe_float (Some (f_potential (fields_of dlg)))) as Hpot
    by (rewrite Hrec; reflexivity).
  assert (lost_of data
          = safe_float (Some (if String.eqb (f_status (fields_of dlg)) "failed"
                              then f_lost (fields_of dlg) else ""))) as Hlost
    by (rewrite Hrec; reflexivity).
  split; [exact Hstatus|]. split; [apply str_in_In, H3|].
  split; [|split; [|split]].
  - intros Hne. apply empty_false in Hne. rewrite Hne in H2. cbn [negb andb] in H2.
    apply negb_false_iff in H2. unfold is_float in H2.
    destruct (float_of_str (f_potential (fields_of dlg))) as [v|] eqn:Hv; [|discriminate].
    exists v. split; [reflexivity|]. rewrite Hpot. unfold safe_float. rewrite Hv. reflexivity.
  - intros Heq. rewrite Hpot, Heq. reflexivity.
  - intros Heq. pose proof Heq as Hfailed.
    apply String.eqb_eq in Hfailed. rewrite Hfailed in H4, Hlost.
    apply orb_false_elim in H4 as [_ H4]. apply negb_false_iff in H4.
    unfold is_float in H4.
    destruct (float_of_str (f_lost (fields_of dlg))) as [v|] eqn:Hv; [|discriminate].
    assert (lost_of data = v) as Hl
      by (rewrite Hlost; unfold safe_float; rewrite Hv; reflexivity).
    exists v. split; [reflexivity|]. split; [exact Hl|].
    unfold consumed_contribution, lost_contribution.
    rewrite Hstatus, Heq, Hl. split; reflexivity.
  - intros Hother. apply String.eqb_neq in Hother. rewrite Hother in Hlost.
    rewrite Hlost. reflexivity.
Qed.

Lemma validated_job_counts_witness :
  exists data, JobDialog_validate failed_job_lost5 = inr data
               /\ lost_contribution data = Some 5%float.
Proof.
  destruct (JobDialog_validate failed_job_lost5) as [e|data] eqn:Hv;
    [vm_compute in Hv; discriminate|].
  exists data. split; [reflexivity|].
  destruct (validated_job_counts failed_job_lost5 data Hv) as (_ & _ & _ & _ & Hfailed & _).
  destruct Hfailed as (v & Hparse & _ & _ & ->); [reflexivity|].
  vm_compute in Hparse. injection Hparse as <-. reflexivity.
Defined.

Lemma SpoolDialog_validate_record (dlg : SpoolDialog) (data : row) :
  SpoolDialog_validate dlg = inr data ->
  dict_get data "Spool ID" (Some "") = Some (strip (id_var dlg))
  /\ dict_get data "Spool Size (g)" (Some "") = Some (strip (size_var dlg))
  /\ empty (strip (id_var dlg)) = false
  /\ is_float (strip (size_var dlg)) = true.
Proof.
  unfold SpoolDialog_validate.
  destruct (empty (strip (id_var dlg))); [discriminate|].
  destruct (is_float (strip (size_var dlg)));
    [|rewrite orb_true_r; discriminate].
  repeat match goal with
         | |- context [if ?b then inl _ else _] => destruct b; [discriminate|]
         end.
  intros [= <-]. repeat split.
Qed.

(** X12. A spool that passed validation has a non-empty id and a size
    that parses; when the totals are filtered on that id and this spool is
    the first of the table, the size used for the remaining grams is the
    number entered, never a silent zero. *)
Theorem validated_spool_size (dlg : SpoolDialog) (data : row) (rest : list row) :
  SpoolDialog_validate dlg = inr data ->
  strip (id_var dlg) <> ""
  /\ exists v, float_of_str (strip (size_var dlg)) = Some v
               /\ spool_size (strip (id_var dlg)) (data :: rest) = v.
Proof.
  intros Hdata.
  destruct (SpoolDialog_validate_record dlg data Hdata) as (Hid & Hsize & Hne & Hfloat).
  split; [apply empty_false, Hne|].
  unfold is_float in Hfloat.
  destruct (float_of_str (strip (size_var dlg))) as [v|] eqn:Hv; [|discriminate].
  exists v. split; [reflexivity|].
  cbn [spool_size]. rewrite Hid, Hsize. unfold val_eqb.
  rewrite String.eqb_refl. unfold safe_float. rewrite Hv. reflexivity.
Qed.

Lemma validated_spool_size_witness :
  exists data, SpoolDialog_validate spool_other_named = inr data
               /\ spool_size "SP-20240101-0001" [data] = 1000%float.
Proof.
  destruct (SpoolDialog_validate spool_other_named) as [e|data] eqn:Hv;
    [vm_compute in Hv; discriminate|].
  exists data. split; [reflexivity|].
  destruct (validated_spool_size spool_other_named data [] Hv) as (_ & v & Hparse & Hsize).
  vm_compute in Hparse. injection Hparse as <-. exact Hsize.
Defined.

(** ** More on the totals, the filter and the start-up *)

Section Filter.

Variable spools_rows : list row.

Lemma offered_ids (v : string) :
  In v (map (fun r : row => or_empty (dict_get r "Spool ID" (Some "")))
            (List.filter (fun r : row => truthy (dict_get r "Spool ID" (Some "")))
                         spools_rows))
  <-> v <> "" /\ exists r, In r spools_rows /\ dict_get r "Spool ID" (Some "") = Some v.
Proof.
  rewrite in_map_iff. split.
  - intros (r & <- & Hr). apply List.filter_In in Hr as [Hr Ht].
    unfold truthy, falsy in Ht.
    destruct (dict_get r "Spool ID" (Some "")) as [s|] eqn:Hid; [|discriminate].
    apply negb_true_iff, empty_false in Ht. cbn [or_empty].
    split; [exact Ht|]. exists r. split; [exact Hr|exact Hid].
  - intros (Hv & r & Hr & Hid). exists r. rewrite Hid. split; [reflexivity|].
    apply List.filter_In. split; [exact Hr|].
    rewrite Hid. unfold truthy, falsy. apply negb_true_iff, empty_false, Hv.
Qed.

(** X13. After [refresh_spool_filter] the filter is always one of the
    values the combo box offers: a filter naming a spool that is still
    among the cached rows is kept, any other is reset to the sentinel.
    The offered values are the sentinel followed by the non-blank ids, so
    a filter other than the sentinel always names an existing spool, and
    refreshing again changes nothing. *)
Theorem refresh_spool_filter_valid (cur : string) :
  let values := fst (refresh_spool_filter spools_rows cur) in
  let new := snd (refresh_spool_filter spools_rows cur) in
  In new values
  /\ (In cur values -> new = cur)
  /\ (~ In cur values -> new = "(All)")
  /\ (forall v, In v values -> v <> "")
  /\ (new <> "(All)" ->
      exists r, In r spools_rows /\ dict_get r "Spool ID" (Some "") = Some new)
  /\ refresh_spool_filter spools_rows new = (values, new).
Proof.
  cbn zeta. unfold refresh_spool_filter. cbn [fst snd].
  set (values := "(All)" :: map _ _).
  destruct (str_in cur values) eqn:Hcur; cbn [negb].
  - pose proof Hcur as Hin. apply str_in_In in Hin.
    split; [exact Hin|]. split; [reflexivity|]. split; [contradiction|].
    split; [|split].
    + intros v [<-|Hv]; [discriminate|]. apply offered_ids in Hv. apply Hv.
    + intros Hne. destruct Hin as [Heq|Hin]; [congruence|].
      apply offered_ids in Hin. apply Hin.
    + rewrite Hcur. reflexivity.
  - split; [left; reflexivity|].
    split; [intros Hin; apply str_in_In in Hin; congruence|].
    split; [reflexivity|]. split; [|split].
    + intros v [<-|Hv]; [discriminate|]. apply offered_ids in Hv. apply Hv.
    + congruence.
    + reflexivity.
Qed.

End Filter.

Lemma refresh_spool_filter_valid_witness :
  snd (refresh_spool_filter example_spools "SP-20240101-0002") = "SP-20240101-0002"
  /\ snd (refresh_spool_filter example_spools "SP-20231231-0001") = "(All)".
Proof.
  destruct (refresh_spool_filter_valid example_spools "SP-20240101-0002")
    as (_ & Hkeep & _).
  destruct (refresh_spool_filter_valid example_spools "SP-20231231-0001")
    as (_ & _ & Hreset & _).
  split.
  - apply Hkeep. vm_compute. auto.
  - apply Hreset. vm_compute. intros [H|[H|[H|[]]]]; discriminate.
Defined.

(** X14. Jobs that the filter excludes have no influence: removing (or
    adding) a job assigned to another spool changes none of the totals
    nor the remaining grams of the selected spool. *)
Theorem update_totals_excluded (before after : list row) (r : row)
    (spools : list row) (filter_sid : string) :
  passes filter_sid r = false ->
  update_totals (before ++ r :: after) spools filter_sid
  = update_totals (before ++ after) spools filter_sid.
Proof.
  intros Hr. unfold update_totals. rewrite !fold_left_app. cbn [fold_left].
  rewrite totals_step_excluded by exact Hr. reflexivity.
Qed.

Lemma update_totals_excluded_witness :
  update_totals (example_jobs ++ [job_row "75" "success" "" "SP-20240101-0002"])
    example_spools "SP-20240101-0001"
  = update_totals example_jobs example_spools "SP-20240101-0001".
Proof.
  rewrite <- (app_nil_r example_jobs) at 2.
  apply update_totals_excluded. vm_compute. reflexivity.
Defined.

Section Startup.

Lemma jobs_NoWrite_inv (file : option string) :
  jobs_migration file = Some NoWrite ->
  exists text fieldnames rows,
    file = Some text /\ DictReader text = Some (fieldnames, rows)
    /\ has_column "Spool ID" fieldnames = true.
Proof.
  destruct file as [text|]; [|discriminate]. unfold jobs_migration.
  destruct (DictReader text) as [[fn rows]|] eqn:Hread; [|discriminate].
  destruct (has_column "Spool ID" fn) eqn:Hcol; [|discriminate].
  intros _. exists text, fn, rows. split; [reflexivity|]. split; [exact Hread|exact Hcol].
Qed.

Lemma spools_NoWrite_inv (file : option string) :
  spools_migration file = Some NoWrite ->
  exists text fieldnames rows,
    file = Some text /\ DictReader text = Some (fieldnames, rows)
    /\ has_column "Other Material" fieldnames = true.
Proof.
  destruct file as [text|]; [|discriminate]. unfold spools_migration.
  destruct (DictReader text) as [[fn rows]|] eqn:Hread; [|discriminate].
  destruct (has_column "Other Material" fn) eqn:Hcol; [|discriminate].
  intros _. exists text, fn, rows. split; [reflexivity|]. split; [exact Hread|exact Hcol].
Qed.

(** X15. The start-up block never raises, whatever the two files hold.
    Afterwards both files exist, the jobs file has a [Spool ID] column
    and the spools file an [Other Material] column, and no other file
    has been touched. *)
Theorem migrate_postcondition (jobs_csv spools_csv : string) (fs : files) :
  exists fs1,
    migrate jobs_csv spools_csv fs = Some fs1
    /\ (exists text fieldnames rows,
          fs1 !! jobs_csv = Some text /\ DictReader text = Some (fieldnames, rows)
          /\ has_column "Spool ID" fieldnames = true)
    /\ (exists text fieldnames rows,
          fs1 !! spools_csv = Some text /\ DictReader text = Some (fieldnames, rows)
          /\ has_column "Other Material" fieldnames = true)
    /\ (forall other, other <> jobs_csv -> other <> spools_csv ->
          fs1 !! other = fs !! other).
Proof.
  destruct (jobs_migration_ok (fs !! jobs_csv)) as (a & Ha & Ha2 & _).
  destruct (spools_migration_ok (write_to jobs_csv a fs !! spools_csv))
    as (b & Hb & Hb2 & _).
  exists (write_to spools_csv b (write_to jobs_csv a fs)).
  split; [unfold migrate; rewrite Ha; cbn zeta; rewrite Hb; reflexivity|].
  split; [|split].
  - apply jobs_NoWrite_inv.
    destruct b as [|text].
    + rewrite write_to_NoWrite, lookup_write_to_eq. exact Ha2.
    + destruct (decide (spools_csv = jobs_csv)) as [->|Hne].
      * rewrite lookup_write_to_eq. cbn [after].
        eapply jobs_after_spools_write. exact Hb.
      * rewrite lookup_write_to_ne by exact Hne.
        rewrite lookup_write_to_eq. exact Ha2.
  - apply spools_NoWrite_inv. rewrite lookup_write_to_eq. exact Hb2.
  - intros other Hj Hs.
    rewrite !lookup_write_to_ne by congruence. reflexivity.
Qed.

Lemma migrated_rows_complete (header : list string) (col : string) (old : list row) :
  forall r, In r (migrated_rows header col old) -> complete header r.
Proof.
  intros r Hr. unfold migrated_rows in Hr. apply in_map_iff in Hr as (r0 & <- & _).
  intros k. rewrite dict_comp_lookup. split.
  - intros Hk. apply str_in_In in Hk. rewrite Hk. eexists. reflexivity.
  - intros Hk. destruct (str_in k header) eqn:E; [|reflexivity].
    apply str_in_In in E. contradiction.
Qed.

(** X16. Start-up on a legacy jobs file followed by the load of the
    application: the rows loaded are the old rows, in order, each with a
    string for every column of the schema, the new [Spool ID] empty, and
    no [None] anywhere, including for rows that were short in the old
    file. *)
Theorem migrate_then_load (jobs_csv spools_csv : string) (fs : files)
    (text : string) (fieldnames : option (list string)) (recs : list row) :
  jobs_csv <> spools_csv ->
  fs !! jobs_csv = Some text ->
  DictReader text = Some (fieldnames, recs) ->
  has_column "Spool ID" fieldnames = false ->
  exists fs1,
    migrate jobs_csv spools_csv fs = Some fs1
    /\ read_rows jobs_csv JOB_COLS fs1
       = Some (migrated_rows JOB_COLS "Spool ID" recs, fs1)
    /\ (forall r, In r (migrated_rows JOB_COLS "Spool ID" recs) -> complete JOB_COLS r).
Proof.
  intros Hne Hfile Hread Hcol.
  destruct (jobs_migration_ok (fs !! jobs_csv)) as (a & Ha & _ & _ & Hsome).
  destruct (Hsome text fieldnames recs Hfile Hread) as [_ Hlacks].
  destruct (Hlacks Hcol) as (text' & -> & Hback).
  destruct (spools_migration_ok (write_to jobs_csv (WriteFile text') fs !! spools_csv))
    as (b & Hb & _).
  exists (write_to spools_csv b (write_to jobs_csv (WriteFile text') fs)).
  split; [unfold migrate; rewrite Ha; cbn zeta; rewrite Hb; reflexivity|].
  split; [|apply migrated_rows_complete].
  assert (write_to spools_csv b (write_to jobs_csv (WriteFile text') fs) !! jobs_csv
          = Some text') as Hnew.
  { rewrite lookup_write_to_ne by congruence. apply lookup_insert_eq. }
  unfold read_rows, ensure_csv. rewrite Hnew, Hnew, Hback.
  f_equal. f_equal. unfold migrated_rows. rewrite map_map.
  apply map_ext. intros r. apply read_row_full.
Qed.

End Startup.

Lemma migrate_then_load_witness :
  exists fs1 rows,
    migrate "filament_log.csv" "filament_spools.csv" legacy_files = Some fs1
    /\ read_rows "filament_log.csv" JOB_COLS fs1 = Some (rows, fs1)
    /\ map (values_of JOB_COLS) rows
       = [[Some "2024-01-01"; Some "bracket"; Some "50"; Some "failed"; Some "5"; Some ""];
          [Some "2024-01-02"; Some "hook"; Some ""; Some ""; Some ""; Some ""]].
Proof.
  destruct (migrate_then_load "filament_log.csv" "filament_spools.csv" legacy_files
              legacy_jobs
              (Some ["Date"; "Name of Job"; "Grams Potential"; "Status"; "Lost (g)"])
              (map (dict_row ["Date"; "Name of Job"; "Grams Potential"; "Status";
                              "Lost (g)"])
                   [["2024-01-01"; "bracket"; "50"; "failed"; "5"];
                    ["2024-01-02"; "hook"]]))
    as (fs1 & Hm & Hload & _).
  - discriminate.
  - vm_compute. reflexivity.
  - vm_compute. reflexivity.
  - reflexivity.
  - exists fs1. eexists. split; [exact Hm|]. split; [exact Hload|].
    vm_compute. reflexivity.
Defined.

(** ** Loading files without short rows *)

Section FullRows.

Lemma dict_row_values (fn rec : list string) (k : string) :
  (length fn <= length rec)%nat ->
  dict_row fn rec !! k = None \/ exists s, dict_row fn rec !! k = Some (Some s).
Proof.
  intros Hlen. unfold dict_row. rewrite drop_ge by exact Hlen. cbn [fold_left].
  assert (forall (l : list (string * string)) (d : row),
             (d !! k = None \/ exists s, d !! k = Some (Some s)) ->
             let d' := fold_left (fun d kv => <[fst kv := Some (snd kv)]> d) l d in
             d' !! k = None \/ exists s, d' !! k = Some (Some s)) as Hfold.
  { induction l as [|[c v] l IH]; intros d Hd; [exact Hd|].
    cbn [fold_left fst snd]. apply IH.
    destruct (decide (c = k)) as [->|Hne].
    - right. exists v. apply lookup_insert_eq.
    - rewrite lookup_insert_ne by exact Hne. exact Hd. }
  apply Hfold. left. apply lookup_empty.
Qed.

Lemma read_row_complete (header : list string) (r0 : row) :
  (forall k, r0 !! k = None \/ exists s, r0 !! k = Some (Some s)) ->
  complete header (read_row header r0).
Proof.
  intros Hr0 k. rewrite read_row_lookup. split.
  - intros Hk. apply str_in_In in Hk. rewrite Hk.
    destruct (_ && _ && _); [eexists; reflexivity|].
    destruct (_ && _ && _); [eexists; reflexivity|].
    unfold dict_get. destruct (Hr0 k) as [->|[s ->]]; eexists; reflexivity.
  - intros Hk. destruct (str_in k header) eqn:E; [|reflexivity].
    apply str_in_In in E. contradiction.
Qed.

(** X17. For a file in which no data row has fewer values than the
    header has names, loading gives rows with a string in every column of
    the schema, and saving them and loading again gives back exactly the
    same rows. *)
Theorem load_save_load_full_rows (path : string) (header : list string) (fs : files)
    (text : string) :
  header <> [] ->
  fs !! path = Some text ->
  (forall fieldnames recs,
      Reader.reader text = Some (fieldnames :: recs) ->
      forall rec, In rec recs -> rec = [] \/ (length fieldnames <= length rec)%nat) ->
  exists rows,
    read_rows path header fs = Some (rows, fs)
    /\ (forall r, In r rows -> complete header r)
    /\ read_rows path header (write_rows path header rows fs)
       = Some (rows, write_rows path header rows fs).
Proof.
  intros Hh Hfile Hfull.
  assert (exists rows, read_rows path header fs = Some (rows, fs)
                       /\ forall r, In r rows -> complete header r)
    as (rows & Hload & Hcomplete).
  { unfold read_rows, ensure_csv. rewrite Hfile, Hfile. unfold DictReader.
    destruct (reader_total text) as [recs0 Hrecs]. rewrite Hrecs.
    destruct recs0 as [|fn recs].
    - exists []. split; [reflexivity|intros r []].
    - eexists. split; [reflexivity|].
      intros r Hr. apply in_map_iff in Hr as (r0 & <- & Hr0).
      apply in_map_iff in Hr0 as (rec & <- & Hrec).
      apply List.filter_In in Hrec as [Hrec Hnil].
      apply read_row_complete. intros k. apply dict_row_values.
      destruct (Hfull fn recs Hrecs rec Hrec) as [->|Hlen]; [discriminate|exact Hlen]. }
  exists rows. split; [exact Hload|]. split; [exact Hcomplete|].
  rewrite read_rows_written by exact Hh. f_equal. f_equal.
  rewrite <- (map_id rows) at 2. apply map_ext_in. intros r Hr.
  apply normalized_complete, Hcomplete, Hr.
Qed.

End FullRows.

Lemma load_save_load_full_rows_witness :
  exists rows,
    read_rows "filament_log.csv" JOB_COLS full_rows_jobs = Some (rows, full_rows_jobs)
    /\ read_rows "filament_log.csv" JOB_COLS
         (write_rows "filament_log.csv" JOB_COLS rows full_rows_jobs)
       = Some (rows, write_rows "filament_log.csv" JOB_COLS rows full_rows_jobs).
Proof.
  destruct (load_save_load_full_rows "filament_log.csv" JOB_COLS full_rows_jobs
              ("Date,Name of Job,Grams Potential,Status,Lost (g),Spool ID"
               +:+ Writer.lineterminator
               +:+ "2024-01-01,bracket,50,failed,5,SP-20240101-0001"
               +:+ Writer.lineterminator
               +:+ "2024-01-02,hook,12,success,," +:+ Writer.lineterminator))
    as (rows & Hload & _ & Hagain).
  - discriminate.
  - vm_compute. reflexivity.
  - intros fn recs Hread rec Hrec. vm_compute in Hread.
    injection Hread as <- <-. right.
    destruct Hrec as [<-|[<-|[]]]; vm_compute; lia.
  - exists rows. split; assumption.
Defined.
